(** * A shallow embedding of [client/webrtc.go]

    The Go type [WebRTCPeer] and its methods are translated into functions
    over an explicit peer state.  A method can return, park its goroutine
    on a channel operation, or panic; the three are kept apart by
    [Outcome], and the partial effects made before a park or a panic stay
    in the state; a goroutine that parks on a channel is recorded on the
    channel, a sender with the value it sends.  Calls into collaborators
    that live outside the file (the go-webrtc engine, the broker, the
    [io.Pipe] bridge, the byte logger) are recorded in a chronological
    trace; their results are supplied by the caller of the model. *)

From Stdlib Require Import String List ZArith Bool Arith Lia.
Import ListNotations.

Set Implicit Arguments.

(** ** Basic data *)

Definition bytes := list Byte.byte.

(** A Go [error] value that is not nil. *)
Definition Err := string.

(** [webrtc.SessionDescription]; a pointer to it is an [option]. *)
Record SessionDescription : Type := { Sdp : string }.

(** Handles of engine objects: the [n]-th object the engine created. *)
Definition PeerConnection := nat.
Definition DataChannel := nat.

(** [time.Time] and [time.Duration], in nanoseconds. *)
Definition Time := Z.

(** ** Outcomes *)

Inductive Outcome (A : Type) : Type :=
| Returned (a : A)
| Blocked
| Panicked (msg : string).

Arguments Blocked {A}.
Arguments Panicked {A} msg.

(** ** Go channels

    A buffered channel: the queued values, the capacity given to [make],
    whether [close] was called on it, how many goroutines are parked in a
    receive on it, and the values of the goroutines parked in a send on
    it, the one that parked first at the head. *)

Record Chan (A : Type) : Type := MkChan {
  ch_buf : list A;
  ch_cap : nat;
  ch_closed : bool;
  ch_recvq : nat;
  ch_sendq : list A
}.

Definition make_chan (A : Type) (cap : nat) : Chan A :=
  MkChan [] cap false 0 [].

(** [ch <- v].  A parked receiver takes the value directly; otherwise the
    value is queued when there is room, and when there is none the sender
    parks on the channel with its value, behind the senders that parked
    before it. *)
Definition chan_send {A} (ch : Chan A) (v : A) : Outcome unit * Chan A :=
  if ch_closed ch then (Panicked "send on closed channel", ch)
  else match ch_recvq ch with
       | S k =>
           (Returned tt,
            MkChan (ch_buf ch) (ch_cap ch) false k (ch_sendq ch))
       | O =>
           if length (ch_buf ch) <? ch_cap ch
           then (Returned tt,
                 MkChan (ch_buf ch ++ [v]) (ch_cap ch) false 0 (ch_sendq ch))
           else (Blocked,
                 MkChan (ch_buf ch) (ch_cap ch) false 0 (ch_sendq ch ++ [v]))
       end.

(** [v, ok := <-ch], with [zero] the zero value of the element type.  On
    a channel that is not closed, a receive that finds a sender parked
    releases the first one: the receiver takes the head of the buffer and
    the sender's value goes to its tail (with no buffer, the receiver
    takes the sender's value). *)
Definition chan_recv {A} (zero : A) (ch : Chan A) : Outcome (A * bool) * Chan A :=
  match ch_buf ch with
  | v :: rest =>
      if ch_closed ch
      then (Returned (v, true),
            MkChan rest (ch_cap ch) true (ch_recvq ch) (ch_sendq ch))
      else
        match ch_sendq ch with
        | s :: senders =>
            (Returned (v, true),
             MkChan (rest ++ [s]) (ch_cap ch) false (ch_recvq ch) senders)
        | [] =>
            (Returned (v, true),
             MkChan rest (ch_cap ch) false (ch_recvq ch) [])
        end
  | [] =>
      if ch_closed ch then (Returned (zero, false), ch)
      else
        match ch_sendq ch with
        | s :: senders =>
            (Returned (s, true),
             MkChan [] (ch_cap ch) false (ch_recvq ch) senders)
        | [] => (Blocked, MkChan [] (ch_cap ch) false (S (ch_recvq ch)) [])
        end
  end.

(** [close(ch)].  The receivers parked on the channel are released.  The
    senders parked on it are woken to panic, each in its own goroutine:
    [close] itself returns, and they stay recorded on the closed channel
    until they run (see [woken_sender]). *)
Definition chan_close {A} (ch : Chan A) : Outcome (Chan A) :=
  if ch_closed ch then Panicked "close of closed channel"
  else Returned (MkChan (ch_buf ch) (ch_cap ch) true 0 (ch_sendq ch)).

(** Lines that [log] prints and that tell two branches apart. *)
Inductive LogLine : Type :=
| LogOnCloseLocally          (* "WebRTC: DataChannel.OnClose [locally]" *)
| LogOnCloseRemotely         (* "WebRTC: DataChannel.OnClose [remotely]" *)
| LogZeroLength              (* "0 length message---" *)
| LogPipeError               (* "Error writing to SOCKS pipe" *)
| LogShortWrite              (* "Error: short write" *)
| LogStale                   (* "WebRTC: No messages received for ..." *)
| LogFailedOffer             (* "Failed to prepare offer" *)
| LogSetRemoteFailed         (* "WebRTC: Unable to SetRemoteDescription:" *)
| LogRetrying.               (* "Failed to retrieve answer. Retrying in ..." *)


(** ** Calls into collaborators, in the order they are made *)

Inductive Event : Type :=
| EvAddOutbound (n : nat)                 (* c.BytesLogger.AddOutbound(n) *)
| EvAddInbound (n : nat)                  (* c.BytesLogger.AddInbound(n) *)
| EvSend (dc : DataChannel) (b : bytes)   (* dc.Send(b) *)
| EvDataChannelClose (dc : DataChannel)   (* dataChannel.Close() *)
| EvPeerConnectionClose (pc : PeerConnection) (* pc.Close() *)
| EvNewPeerConnection                     (* webrtc.NewPeerConnection(config) *)
| EvCreateDataChannel (pc : PeerConnection) (label : string)
| EvSetRemoteDescription (pc : PeerConnection) (answer : SessionDescription)
| EvNegotiate (offer : option SessionDescription) (* c.broker.Negotiate(offer) *)
| EvSleep (d : Z)                         (* <-time.After(d) *)
| EvPipeWrite (msg : bytes)               (* c.writePipe.Write(msg) *)
| EvPipeCloseWithError (e : Err)          (* c.writePipe.CloseWithError(e) *)
| EvPipeClose                             (* c.writePipe.Close() *)
| EvGoCheckForStaleness                   (* go c.checkForStaleness() *)
| EvLog (l : LogLine).

(** ** The broker

    [BrokerChannel] is declared outside this file; the peer only calls
    [Negotiate] on it.  A broker is given by its reply to the [i]-th call
    (made with a given offer), and counts the calls made so far. *)

Definition Reply := (option SessionDescription * option Err)%type.

Record BrokerChannel : Type := {
  replies : nat -> option SessionDescription -> Reply;
  calls : nat
}.

Inductive PipeWriter : Type := ThePipeWriter.

(** ** The peer *)

Record WebRTCPeer : Type := MkPeer {
  id : string;
  pc : option PeerConnection;
  transport : option DataChannel;
  broker : option BrokerChannel;
  offerChannel : option (Chan (option SessionDescription));
  answerChannel : option (Chan (option SessionDescription));
  errorChannel : option (Chan (option Err));
  writePipe : option PipeWriter;
  lastReceive : Time;
  buffer : bytes;
  reset : option (Chan unit);
  closed : bool;
  trace : list Event
}.

Definition set_pc v c :=
  MkPeer (id c) v (transport c) (broker c) (offerChannel c) (answerChannel c)
    (errorChannel c) (writePipe c) (lastReceive c) (buffer c) (reset c)
    (closed c) (trace c).
Definition set_transport v c :=
  MkPeer (id c) (pc c) v (broker c) (offerChannel c) (answerChannel c)
    (errorChannel c) (writePipe c) (lastReceive c) (buffer c) (reset c)
    (closed c) (trace c).
Definition set_broker v c :=
  MkPeer (id c) (pc c) (transport c) v (offerChannel c) (answerChannel c)
    (errorChannel c) (writePipe c) (lastReceive c) (buffer c) (reset c)
    (closed c) (trace c).
Definition set_offerChannel v c :=
  MkPeer (id c) (pc c) (transport c) (broker c) v (answerChannel c)
    (errorChannel c) (writePipe c) (lastReceive c) (buffer c) (reset c)
    (closed c) (trace c).
Definition set_answerChannel v c :=
  MkPeer (id c) (pc c) (transport c) (broker c) (offerChannel c) v
    (errorChannel c) (writePipe c) (lastReceive c) (buffer c) (reset c)
    (closed c) (trace c).
Definition set_errorChannel v c :=
  MkPeer (id c) (pc c) (transport c) (broker c) (offerChannel c)
    (answerChannel c) v (writePipe c) (lastReceive c) (buffer c) (reset c)
    (closed c) (trace c).
Definition set_writePipe v c :=
  MkPeer (id c) (pc c) (transport c) (broker c) (offerChannel c)
    (answerChannel c) (errorChannel c) v (lastReceive c) (buffer c) (reset c)
    (closed c) (trace c).
Definition set_lastReceive v c :=
  MkPeer (id c) (pc c) (transport c) (broker c) (offerChannel c)
    (answerChannel c) (errorChannel c) (writePipe c) v (buffer c) (reset c)
    (closed c) (trace c).
Definition set_buffer v c :=
  MkPeer (id c) (pc c) (transport c) (broker c) (offerChannel c)
    (answerChannel c) (errorChannel c) (writePipe c) (lastReceive c) v
    (reset c) (closed c) (trace c).
Definition set_reset v c :=
  MkPeer (id c) (pc c) (transport c) (broker c) (offerChannel c)
    (answerChannel c) (errorChannel c) (writePipe c) (lastReceive c)
    (buffer c) v (closed c) (trace c).
Definition set_closed v c :=
  MkPeer (id c) (pc c) (transport c) (broker c) (offerChannel c)
    (answerChannel c) (errorChannel c) (writePipe c) (lastReceive c)
    (buffer c) (reset c) v (trace c).
Definition emit (e : Event) c :=
  MkPeer (id c) (pc c) (transport c) (broker c) (offerChannel c)
    (answerChannel c) (errorChannel c) (writePipe c) (lastReceive c)
    (buffer c) (reset c) (closed c) (trace c ++ [e]).

(** ** Methods as state transformers *)

Definition M (A : Type) : Type := WebRTCPeer -> Outcome A * WebRTCPeer.

Definition ret {A} (a : A) : M A := fun c => (Returned a, c).

Definition bind {A B} (m : M A) (k : A -> M B) : M B :=
  fun c =>
    match m c with
    | (Returned a, c') => k a c'
    | (Blocked, c') => (Blocked, c')
    | (Panicked msg, c') => (Panicked msg, c')
    end.

Definition panic {A} (msg : string) : M A := fun c => (Panicked msg, c).

Definition get : M WebRTCPeer := fun c => (Returned c, c).

Definition modify (f : WebRTCPeer -> WebRTCPeer) : M unit :=
  fun c => (Returned tt, f c).

(** A channel operation that yields the channel's new state. *)
Definition lift {A} (o : Outcome A) : M A := fun c => (o, c).

(** [ch <- v] on the channel [ch] that [store] assigns to.  The channel
    is left as the send leaves it, also when the sender parks. *)
Definition send_on {A} (ch : Chan A) (v : A)
    (store : option (Chan A) -> WebRTCPeer -> WebRTCPeer) : M unit :=
  fun c =>
    let (o, ch') := chan_send ch v in
    match o with
    | Panicked msg => (Panicked msg, c)
    | _ => (o, store (Some ch') c)
    end.

Definition log (l : LogLine) : M unit := modify (emit (EvLog l)).

Declare Scope go_scope.
Delimit Scope go_scope with go.
Notation "x <- m ;; k" := (bind m (fun x => k))
  (at level 61, m at next level, right associativity) : go_scope.
Notation "m ;; k" := (bind m (fun _ => k))
  (at level 61, right associativity) : go_scope.
Open Scope go_scope.

(** [NewWebRTCPeer(config, broker)]; [uid] is what [uniuri.New()] gave. *)
Definition NewWebRTCPeer (uid : string) (b : option BrokerChannel) : WebRTCPeer :=
  {| id := ("snowflake-" ++ uid)%string;
     pc := None;
     transport := None;
     broker := b;
     offerChannel := Some (make_chan _ 1);
     answerChannel := Some (make_chan _ 1);
     errorChannel := Some (make_chan _ 1);
     writePipe := Some ThePipeWriter;
     lastReceive := 0%Z;
     buffer := [];
     reset := Some (make_chan _ 1);
     closed := false;
     trace := [] |}.

(** [func (c *WebRTCPeer) Write(b []byte) (int, error)] *)
Definition Write (b : bytes) : M (nat * option Err) :=
  modify (emit (EvAddOutbound (length b))) ;;
  c <- get ;;
  match transport c with
  | None => modify (set_buffer (buffer c ++ b))
  | Some t => modify (emit (EvSend t b))
  end ;;
  ret (length b, None).

(** [func (c *WebRTCPeer) Reset()] *)
Definition Reset : M unit :=
  c <- get ;;
  match reset c with
  | None => ret tt
  | Some ch => send_on ch tt set_reset
  end.

(** [func (c *WebRTCPeer) WaitForReset()] *)
Definition WaitForReset : M unit :=
  fun c =>
    match reset c with
    | None => (Blocked, c)                (* receive from a nil channel *)
    | Some ch =>
        let (o, ch') := chan_recv tt ch in
        match o with
        | Returned _ => (Returned tt, set_reset (Some ch') c)
        | Blocked => (Blocked, set_reset (Some ch') c)
        | Panicked m => (Panicked m, c)
        end
    end.

(** [go f()]: the new goroutine's effects are interleaved here.  A panic in
    it takes the process down; when it parks, the caller goes on. *)
Definition go (m : M unit) : M unit :=
  fun c =>
    match m c with
    | (Panicked msg, c') => (Panicked msg, c')
    | (_, c') => (Returned tt, c')
    end.

(** ** Close, cleanup and the channel's "closed" callback

    [dataChannel.Close()] belongs to the engine, and the engine may run the
    channel's [OnClose] callback from inside that call.  The functions of
    this section take the behaviour of [dataChannel.Close()] as a
    parameter; [dataChannel_Close] below ties the knot. *)

Section Lifecycle.

Variable dataChannel_Close : DataChannel -> M unit.

(** [func (c *WebRTCPeer) cleanup()] *)
Definition cleanup : M unit :=
  c <- get ;;
  match offerChannel c with
  | Some ch =>
      ch' <- lift (chan_close ch) ;; modify (set_offerChannel (Some ch'))
  | None => ret tt
  end ;;
  c <- get ;;
  match answerChannel c with
  | Some ch =>
      ch' <- lift (chan_close ch) ;; modify (set_answerChannel (Some ch'))
  | None => ret tt
  end ;;
  c <- get ;;
  match errorChannel c with
  | Some ch =>
      ch' <- lift (chan_close ch) ;; modify (set_errorChannel (Some ch'))
  | None => ret tt
  end ;;
  c <- get ;;
  match writePipe c with
  | Some _ => modify (emit EvPipeClose) ;; modify (set_writePipe None)
  | None => ret tt
  end ;;
  c <- get ;;
  match transport c with
  | Some dataChannel =>
      modify (set_transport None) ;;
      dataChannel_Close dataChannel
  | None => ret tt
  end ;;
  c <- get ;;
  match pc c with
  | Some p => modify (emit (EvPeerConnectionClose p)) ;; modify (set_pc None)
  | None => ret tt
  end.

(** [func (c *WebRTCPeer) Close() error] *)
Definition Close : M (option Err) :=
  c <- get ;;
  if closed c then ret None
  else
    modify (set_closed true) ;;
    cleanup ;;
    Reset ;;
    ret None.

(** [dc.OnClose], registered by [establishDataChannel]. *)
Definition dc_OnClose : M unit :=
  c <- get ;;
  match transport c with
  | None => log LogOnCloseLocally
  | Some _ =>
      log LogOnCloseRemotely ;;
      modify (set_transport None) ;;
      Close ;;
      ret tt
  end.

End Lifecycle.

(** The engine's [dataChannel.Close()]: the request is recorded, and the
    engine runs the registered [OnClose] from inside the call when [sync]
    is positive ([sync] bounds how often it does so for nested requests);
    with [sync = 0] the callback comes later, as a step of its own. *)
Fixpoint dataChannel_Close (sync : nat) (dc : DataChannel) : M unit :=
  modify (emit (EvDataChannelClose dc)) ;;
  match sync with
  | O => ret tt
  | S k => dc_OnClose (dataChannel_Close k) ;; ret tt
  end.

(** ** Connecting *)

(** A Go result pair [(v, err)] of which exactly one side is set. *)
Inductive Result (A : Type) : Type :=
| Ok (a : A)
| Failed (e : Err).

Arguments Failed {A} e.

(** What [exchangeSDP] and [Connect] have come to after a bounded number of
    rounds of the retry loop. *)
Inductive Exchange : Type :=
| StillRetrying
| Done (err : option Err).

Inductive Watchdog : Type := WdRunning | WdReturned.

(** [time.Second] *)
Definition Second : Z := 1000000000.

(** [dc.OnOpen], registered by [establishDataChannel] on the channel [dc]. *)
Definition dc_OnOpen (dc : DataChannel) : M unit :=
  c <- get ;;
  match transport c with
  | Some _ => panic "WebRTC: transport already exists."
  | None =>
      (if 0 <? length (buffer c)
       then modify (emit (EvSend dc (buffer c))) ;; modify (set_buffer [])
       else ret tt) ;;
      modify (set_transport (Some dc))
  end.

(** [dc.OnMessage].  [now] is what [time.Now()] gives and [wr] is the pair
    that [c.writePipe.Write(msg)] returns. *)
Definition dc_OnMessage (now : Time) (wr : nat * option Err) (msg : bytes)
  : M unit :=
  (if length msg <=? 0 then log LogZeroLength else ret tt) ;;
  modify (emit (EvAddInbound (length msg))) ;;
  c <- get ;;
  match writePipe c with
  | None => panic "nil pointer dereference"
  | Some _ =>
      modify (emit (EvPipeWrite msg)) ;;
      let (n, err) := wr in
      match err with
      | Some e => log LogPipeError ;; modify (emit (EvPipeCloseWithError e))
      | None => ret tt
      end ;;
      if negb (n =? length msg)
      then log LogShortWrite ;; panic "short write"
      else modify (set_lastReceive now)
  end.

(** [pc.OnDataChannel], registered by [preparePeerConnection]. *)
Definition pc_OnDataChannel (channel : DataChannel) : M unit :=
  panic "Unexpected OnDataChannel!".

(** [c.errorChannel <- err] *)
Definition send_error (e : Err) : M unit :=
  c <- get ;;
  match errorChannel c with
  | None => lift Blocked
  | Some ch => send_on ch (Some e) set_errorChannel
  end.

(** The goroutine started by [pc.OnNegotiationNeeded]; [offer] is the
    result of [pc.CreateOffer()], [setLocal] that of
    [pc.SetLocalDescription(offer)]. *)
Definition pc_OnNegotiationNeeded (offer : Result SessionDescription)
    (setLocal : option Err) : M unit :=
  match offer with
  | Failed e => send_error e
  | Ok _ =>
      match setLocal with
      | Some e => send_error e
      | None => ret tt
      end
  end.

(** [func (c *WebRTCPeer) preparePeerConnection() error]; [r] is the result
    of [webrtc.NewPeerConnection(c.config)]. *)
Definition preparePeerConnection (r : Result PeerConnection) : M (option Err) :=
  c <- get ;;
  match pc c with
  | Some p => modify (emit (EvPeerConnectionClose p)) ;; modify (set_pc None)
  | None => ret tt
  end ;;
  modify (emit EvNewPeerConnection) ;;
  match r with
  | Failed e => ret (Some e)
  | Ok p => modify (set_pc (Some p)) ;; ret None
  end.

(** [func (c *WebRTCPeer) establishDataChannel() error]; [r] is the result
    of [c.pc.CreateDataChannel(c.id, webrtc.Init{})]. *)
Definition establishDataChannel (r : Result DataChannel) : M (option Err) :=
  c <- get ;;
  match transport c with
  | Some _ => panic "Unexpected datachannel already exists!"
  | None =>
      match pc c with
      | None => panic "nil pointer dereference"
      | Some p =>
          modify (emit (EvCreateDataChannel p (id c))) ;;
          match r with
          | Failed e => ret (Some e)
          | Ok _ => ret None
          end
      end
  end.

(** A receive as a case of [select], or on its own: ready when a value is
    queued, the channel is closed or a sender is parked on it; a nil
    channel is never ready. *)
Definition ready {A} (ch : option (Chan A)) : bool :=
  match ch with
  | None => false
  | Some ch =>
      match ch_buf ch with
      | _ :: _ => true
      | [] => ch_closed ch || negb (length (ch_sendq ch) =? 0)
      end
  end.

Definition recv_offer : M (option SessionDescription * bool) :=
  fun c =>
    match offerChannel c with
    | None => (Blocked, c)
    | Some ch =>
        let (o, ch') := chan_recv None ch in (o, set_offerChannel (Some ch') c)
    end.

Definition recv_error : M (option Err * bool) :=
  fun c =>
    match errorChannel c with
    | None => (Blocked, c)
    | Some ch =>
        let (o, ch') := chan_recv None ch in (o, set_errorChannel (Some ch') c)
    end.

Definition recv_answer : M (option SessionDescription * bool) :=
  fun c =>
    match answerChannel c with
    | None => (Blocked, c)
    | Some ch =>
        let (o, ch') := chan_recv None ch in (o, set_answerChannel (Some ch') c)
    end.

Section Session.

(** [SnowflakeTimeout] and [ReconnectTimeout], in seconds: constants of
    the package that are declared in another file. *)
Variable SnowflakeTimeout : Z.
Variable ReconnectTimeout : Z.

(** The engine: [pc.LocalDescription()], [pc.SetRemoteDescription(answer)]
    and how [dataChannel.Close()] delivers the closed callback. *)
Variable LocalDescription : PeerConnection -> option SessionDescription.
Variable SetRemoteDescription :
  PeerConnection -> SessionDescription -> option Err.
Variable sync : nat.

(** [pc.OnIceComplete], registered on the connection [p]. *)
Definition pc_OnIceComplete (p : PeerConnection) : M unit :=
  c <- get ;;
  match offerChannel c with
  | None => lift Blocked
  | Some ch => send_on ch (LocalDescription p) set_offerChannel
  end.

(** [func (c *WebRTCPeer) sendOfferToBroker()] *)
Definition sendOfferToBroker : M unit :=
  c <- get ;;
  match broker c with
  | None => ret tt
  | Some b =>
      match pc c with
      | None => panic "nil pointer dereference"
      | Some p =>
          let offer := LocalDescription p in
          modify (emit (EvNegotiate offer)) ;;
          modify (set_broker
                    (Some {| replies := replies b; calls := S (calls b) |})) ;;
          let (answer, err) := replies b (calls b) offer in
          let answer :=
            match err, answer with
            | None, Some a => Some a
            | _, _ => None
            end in
          c <- get ;;
          match answerChannel c with
          | None => lift Blocked
          | Some ch => send_on ch answer set_answerChannel
          end
      end
  end.

(** The loop [for nil == answer { ... }] of [exchangeSDP], run for at
    most [rounds] rounds; [None] when it is still retrying after them. *)
Fixpoint retry (rounds : nat) : M (option SessionDescription) :=
  match rounds with
  | O => ret None
  | S rounds' =>
      go sendOfferToBroker ;;
      r <- recv_answer ;;
      let (answer, ok) := r in
      match answer with
      | Some a =>
          if negb ok
          then log LogRetrying ;;
               modify (emit (EvSleep (Second * ReconnectTimeout))) ;;
               retry rounds'
          else ret (Some a)
      | None =>
          log LogRetrying ;;
          modify (emit (EvSleep (Second * ReconnectTimeout))) ;;
          retry rounds'
      end
  end.

(** [func (c *WebRTCPeer) exchangeSDP() error].  [pick] settles the
    [select] when both cases are ready ([true] takes the offer). *)
Definition exchangeSDP (pick : bool) (rounds : nat) : M Exchange :=
  c <- get ;;
  let offer_ready := ready (offerChannel c) in
  let error_ready := ready (errorChannel c) in
  if offer_ready && (negb error_ready || pick) then
    _ <- recv_offer ;;
    answer <- retry rounds ;;
    match answer with
    | None => ret StillRetrying
    | Some a =>
        c <- get ;;
        match pc c with
        | None => panic "nil pointer dereference"
        | Some p =>
            modify (emit (EvSetRemoteDescription p a)) ;;
            match SetRemoteDescription p a with
            | Some e => log LogSetRemoteFailed ;; ret (Done (Some e))
            | None => ret (Done None)
            end
        end
    end
  else if error_ready then
    r <- recv_error ;;
    log LogFailedOffer ;;
    Close (dataChannel_Close sync) ;;
    ret (Done (fst r))
  else lift Blocked.

(** One round of the [for] loop of [checkForStaleness]; [now] is the
    clock when [time.Since] reads it.  [Seconds()] of a duration exceeds
    the timeout exactly when the nanoseconds exceed it. *)
Definition staleness_round (now : Time) : M Watchdog :=
  c <- get ;;
  if closed c then ret WdReturned
  else if (SnowflakeTimeout * Second <? now - lastReceive c)%Z then
    log LogStale ;;
    Close (dataChannel_Close sync) ;;
    ret WdReturned
  else
    modify (emit (EvSleep Second)) ;;
    ret WdRunning.

(** A timeline seen from the watchdog: its own polls of the clock, and
    the inbound messages that the engine delivers in between (each
    written to the bridge in full). *)
Inductive Tick : Type :=
| Poll (now : Time)
| Message (now : Time) (msg : bytes).

Fixpoint watch (timeline : list Tick) : M Watchdog :=
  match timeline with
  | [] => ret WdRunning
  | Poll now :: rest =>
      w <- staleness_round now ;;
      match w with
      | WdReturned => ret WdReturned
      | WdRunning => watch rest
      end
  | Message now msg :: rest =>
      go (dc_OnMessage now (length msg, None) msg) ;;
      watch rest
  end.

(** [func (c *WebRTCPeer) checkForStaleness()], started at [start] and
    followed along [timeline]; [WdRunning] when the loop is still going
    at the end of it. *)
Definition checkForStaleness (start : Time) (timeline : list Tick)
  : M Watchdog :=
  modify (set_lastReceive start) ;;
  watch timeline.

(** Whether [close] found goroutines parked in a send on the channel. *)
Definition woken {A} (ch : option (Chan A)) : bool :=
  match ch with
  | None => false
  | Some ch => ch_closed ch && negb (length (ch_sendq ch) =? 0)
  end.

(** A goroutine that [close] woke from a send runs on: it panics.  (One
    that a receiver released has nothing left to do to the peer: every
    send of the file is the last statement of its function that touches
    the peer.) *)
Definition woken_sender : M unit :=
  c <- get ;;
  if woken (offerChannel c) || woken (answerChannel c) ||
     woken (errorChannel c) || woken (reset c)
  then panic "send on closed channel"
  else ret tt.

(** What the engine can call back into the peer. *)
Inductive Callback : Type :=
| OnNegotiationNeeded (offer : Result SessionDescription)
    (setLocal : option Err)
| OnIceCandidate
| OnIceComplete (p : PeerConnection)
| OnDataChannel (channel : DataChannel)
| OnOpen (dc : DataChannel)
| OnClose
| OnMessage (now : Time) (wr : nat * option Err) (msg : bytes).

Definition callback (cb : Callback) : M unit :=
  match cb with
  | OnNegotiationNeeded offer setLocal => pc_OnNegotiationNeeded offer setLocal
  | OnIceCandidate => ret tt
  | OnIceComplete p => pc_OnIceComplete p
  | OnDataChannel channel => pc_OnDataChannel channel
  | OnOpen dc => dc_OnOpen dc
  | OnClose => dc_OnClose (dataChannel_Close sync)
  | OnMessage now wr msg => dc_OnMessage now wr msg
  end.

(** Callbacks run one after the other, each on a goroutine of its own. *)
Fixpoint callbacks (cbs : list Callback) : M unit :=
  match cbs with
  | [] => ret tt
  | cb :: rest => go (callback cb) ;; callbacks rest
  end.

(** [func (c *WebRTCPeer) Connect() error].  [newPC] and [newDC] are the
    results of the engine's constructors, [cbs] the callbacks that the
    engine makes while [Connect] waits in [exchangeSDP]; starting the
    watchdog goroutine is recorded in the log of events. *)
Definition Connect (newPC : Result PeerConnection)
    (newDC : Result DataChannel) (cbs : list Callback) (pick : bool)
    (rounds : nat) : M Exchange :=
  err <- preparePeerConnection newPC ;;
  match err with
  | Some e => ret (Done (Some e))
  | None =>
      err <- establishDataChannel newDC ;;
      match err with
      | Some _ =>
          ret (Done (Some "WebRTC: Could not establish DataChannel."%string))
      | None =>
          callbacks cbs ;;
          r <- exchangeSDP pick rounds ;;
          match r with
          | StillRetrying => ret StillRetrying
          | Done (Some e) => ret (Done (Some e))
          | Done None =>
              modify (emit EvGoCheckForStaleness) ;;
              ret (Done None)
          end
      end
  end.

(** Everything that can happen to a peer: a call of one of its methods,
    a callback of the engine, a round of the watchdog, or the scheduler
    running a goroutine that [close] woke from a send. *)
Inductive Op : Type :=
| OpWrite (b : bytes)
| OpClose
| OpReset
| OpWaitForReset
| OpConnect (newPC : Result PeerConnection) (newDC : Result DataChannel)
    (cbs : list Callback) (pick : bool) (rounds : nat)
| OpCallback (cb : Callback)
| OpWatchdogStart (now : Time)
| OpWatchdogRound (now : Time)
| OpWokenSender.

Definition run_op (op : Op) : M unit :=
  match op with
  | OpWrite b => Write b ;; ret tt
  | OpClose => Close (dataChannel_Close sync) ;; ret tt
  | OpReset => Reset
  | OpWaitForReset => WaitForReset
  | OpConnect newPC newDC cbs pick rounds =>
      Connect newPC newDC cbs pick rounds ;; ret tt
  | OpCallback cb => callback cb
  | OpWatchdogStart now => modify (set_lastReceive now)
  | OpWatchdogRound now => staleness_round now ;; ret tt
  | OpWokenSender => woken_sender
  end.

(** The state after a sequence of operations, each made by a goroutine of
    its own: a goroutine that parks leaves the others running, a panic ends
    the process. *)
Fixpoint run_ops (ops : list Op) (c : WebRTCPeer) : WebRTCPeer :=
  match ops with
  | [] => c
  | op :: rest =>
      match run_op op c with
      | (Panicked _, c') => c'
      | (_, c') => run_ops rest c'
      end
  end.

End Session.

(** ** Vocabulary of the properties *)

(** The signals queued in the reset slot, the goroutines parked in
    [WaitForReset], and the signals of the goroutines parked in [Reset]. *)
Definition slot (c : WebRTCPeer) : list unit :=
  match reset c with
  | Some ch => ch_buf ch
  | None => []
  end.

Definition waiters (c : WebRTCPeer) : nat :=
  match reset c with
  | Some ch => ch_recvq ch
  | None => 0
  end.

Definition parked (c : WebRTCPeer) : list unit :=
  match reset c with
  | Some ch => ch_sendq ch
  | None => []
  end.

(** The reset signals that were sent and not consumed yet (queued in the
    slot or held by a parked [Reset]), less the receivers that are parked
    waiting for one. *)
Definition outstanding (c : WebRTCPeer) : Z :=
  Z.of_nat (length (slot c) + length (parked c)) - Z.of_nat (waiters c).

(** [WaitForReset] called [k] times, each call returning. *)
Fixpoint waits (k : nat) : M unit :=
  match k with
  | O => ret tt
  | S k' => WaitForReset ;; waits k'
  end.

(** The reset channel as [NewWebRTCPeer] makes it and as the methods keep
    it: never nil, never closed, of capacity one; no sender is parked
    while the slot is empty, and no receiver while it holds a signal. *)
Definition reset_slot_ok (c : WebRTCPeer) : Prop :=
  exists ch,
    reset c = Some ch /\ ch_cap ch = 1 /\ ch_closed ch = false /\
    ((ch_buf ch = [] /\ ch_sendq ch = []) \/
     (ch_buf ch = [tt] /\ ch_recvq ch = 0)).

(** The [Send] calls of a trace, and the bytes they carry. *)
Fixpoint sends (tr : list Event) : list (DataChannel * bytes) :=
  match tr with
  | [] => []
  | EvSend dc b :: rest => (dc, b) :: sends rest
  | _ :: rest => sends rest
  end.

Definition payload (l : list (DataChannel * bytes)) : bytes :=
  concat (map snd l).

(** How often a trace closes an engine connection. *)
Fixpoint pc_closes (tr : list Event) : nat :=
  match tr with
  | [] => 0
  | EvPeerConnectionClose _ :: rest => S (pc_closes rest)
  | _ :: rest => pc_closes rest
  end.

(** [Write] called on each slice in turn. *)
Fixpoint writes (ws : list bytes) : M unit :=
  match ws with
  | [] => ret tt
  | b :: rest => Write b ;; writes rest
  end.

(** A reply of the broker that the retry loop does not accept. *)
Definition failing (r : Reply) : bool :=
  match r with
  | (Some _, None) => false
  | _ => true
  end.

(** The calls of [k] failed rounds of the retry loop. *)
Fixpoint failed_rounds (offer : option SessionDescription) (backoff : Z)
    (k : nat) : list Event :=
  match k with
  | O => []
  | S k' =>
      EvNegotiate offer :: EvLog LogRetrying :: EvSleep backoff ::
      failed_rounds offer backoff k'
  end.

(** What [sendOfferToBroker] makes of a reply: the answer of a reply
    without error, nil otherwise. *)
Definition accepted (r : Reply) : option SessionDescription :=
  match r with
  | (Some a, None) => Some a
  | _ => None
  end.

(** A broker that was asked [n] more times. *)
Definition asked (n : nat) (b : BrokerChannel) : BrokerChannel :=
  {| replies := replies b; calls := calls b + n |}.

(** The peer [c] with another broker state and another trace. *)
Definition after_rounds (b : BrokerChannel) (tr : list Event)
    (c : WebRTCPeer) : WebRTCPeer :=
  MkPeer (id c) (pc c) (transport c) (Some b) (offerChannel c)
    (answerChannel c) (errorChannel c) (writePipe c) (lastReceive c)
    (buffer c) (reset c) (closed c) tr.



(** A channel that [close] accepts: nil channels are skipped by [cleanup],
    open ones are closed. *)
Definition closable {A} (ch : option (Chan A)) : bool :=
  match ch with
  | None => true
  | Some ch => negb (ch_closed ch)
  end.

(** What [cleanup] asks of the collaborators, in order, when none of its
    [close] calls panics. *)
Definition cleanup_calls (sync : nat) (c : WebRTCPeer) : list Event :=
  match writePipe c with
  | Some _ => [EvPipeClose]
  | None => []
  end ++
  match transport c with
  | Some t =>
      EvDataChannelClose t ::
      match sync with
      | O => []
      | S _ => [EvLog LogOnCloseLocally]
      end
  | None => []
  end ++
  match pc c with
  | Some p => [EvPeerConnectionClose p]
  | None => []
  end.

Definition no_channel (c : WebRTCPeer) : Prop := transport c = None.

(** A predicate on peers that a method keeps, however the method ends. *)
Definition keeps (P : WebRTCPeer -> Prop) {A} (m : M A) : Prop :=
  forall c, P c -> P (snd (m c)).

Definition is_closed (c : WebRTCPeer) : Prop := closed c = true.

(** A predicate that only looks at the reset channel and at whether the
    flag [closed] is set, and that setting the flag does not undo. *)
Definition framed (P : WebRTCPeer -> Prop) : Prop :=
  forall c c',
    reset c' = reset c -> (closed c = true -> closed c' = true) ->
    P c -> P c'.

(** The engine connections closed so far, plus the one still held. *)
Definition engine_balance (c : WebRTCPeer) : nat :=
  pc_closes (trace c) +
  match pc c with
  | Some _ => 1
  | None => 0
  end.

Definition no_engine (c : WebRTCPeer) : Prop := pc c = None.

(** ** Further vocabulary *)

(** The peer [c] with another trace. *)
Definition with_trace (tr : list Event) (c : WebRTCPeer) : WebRTCPeer :=
  MkPeer (id c) (pc c) (transport c) (broker c) (offerChannel c)
    (answerChannel c) (errorChannel c) (writePipe c) (lastReceive c)
    (buffer c) (reset c) (closed c) tr.

(** A channel after [close]. *)
Definition shut {A} (ch : Chan A) : Chan A :=
  MkChan (ch_buf ch) (ch_cap ch) true 0 (ch_sendq ch).

(** The peer that [cleanup] leaves when none of its [close] calls panics:
    the three signal channels closed, the write end of the bridge, the
    channel and the engine connection let go. *)
Definition cleaned (sync : nat) (c : WebRTCPeer) : WebRTCPeer :=
  MkPeer (id c) None None (broker c)
    (option_map shut (offerChannel c))
    (option_map shut (answerChannel c))
    (option_map shut (errorChannel c))
    None (lastReceive c) (buffer c) (reset c) (closed c)
    (trace c ++ cleanup_calls sync c).

(** A channel that is there and was not closed. *)
Definition live {A} (ch : option (Chan A)) : bool :=
  match ch with
  | Some x => negb (ch_closed x)
  | None => false
  end.

(** While the session is open, the write end of the bridge and the three
    signal channels are in place. *)
Definition open_ok (c : WebRTCPeer) : Prop :=
  closed c = false ->
  writePipe c <> None /\
  live (offerChannel c) = true /\
  live (answerChannel c) = true /\
  live (errorChannel c) = true.

(** What a [Close] that does all of [cleanup] does to the engine
    connection it replaces or releases. *)
Definition release_calls (c : WebRTCPeer) : list Event :=
  match pc c with
  | Some old => [EvPeerConnectionClose old]
  | None => []
  end.

(** The peer when [preparePeerConnection] and [establishDataChannel] have
    both succeeded: the connection held before was closed, the new one
    [p] is held, and the engine was asked for a channel named after the
    peer. *)
Definition prepared (p : PeerConnection) (c : WebRTCPeer) : WebRTCPeer :=
  MkPeer (id c) (Some p) (transport c) (broker c) (offerChannel c)
    (answerChannel c) (errorChannel c) (writePipe c) (lastReceive c)
    (buffer c) (reset c) (closed c)
    (trace c ++ release_calls c ++
     [EvNewPeerConnection; EvCreateDataChannel p (id c)]).

(** * Properties *)

Unset Implicit Arguments.

(** ** Predicates that a method keeps *)

Lemma keeps_ret P A (a : A) : keeps P (ret a).
Proof. intros c H; exact H. Qed.

Lemma keeps_get P : keeps P get.
Proof. intros c H; exact H. Qed.

Lemma keeps_lift P A (o : Outcome A) : keeps P (lift o).
Proof. intros c H; exact H. Qed.

Lemma keeps_panic P A msg : keeps P (@panic A msg).
Proof. intros c H; exact H. Qed.

Lemma keeps_modify (P : WebRTCPeer -> Prop) f :
  (forall c, P c -> P (f c)) -> keeps P (modify f).
Proof. intros Hf c H; apply Hf, H. Qed.

Lemma keeps_bind P A B (m : M A) (k : A -> M B) :
  keeps P m -> (forall a, keeps P (k a)) -> keeps P (bind m k).
Proof.
  intros Hm Hk c H. unfold bind.
  specialize (Hm c H). destruct (m c) as [[a| |msg] c']; simpl in *; auto.
  apply Hk, Hm.
Qed.

Lemma keeps_send_on (P : WebRTCPeer -> Prop) A (ch : Chan A) v store :
  (forall ch' c, P c -> P (store ch' c)) -> keeps P (send_on ch v store).
Proof.
  intros Hs c H. unfold send_on.
  destruct (chan_send ch v) as [[a| |msg] ch']; simpl; auto.
Qed.

Lemma keeps_go P (m : M unit) : keeps P m -> keeps P (go m).
Proof.
  intros Hm c H. unfold go. specialize (Hm c H).
  destruct (m c) as [[a| |msg] c']; simpl in *; auto.
Qed.

(** Splits a goal [keeps P m] along the structure of [m]; [leaf] closes
    the goals about a single field update. *)
Ltac keeps_with leaf :=
  repeat first
    [ apply keeps_ret
    | apply keeps_get
    | apply keeps_lift
    | apply keeps_panic
    | apply keeps_go
    | assumption
    | apply keeps_modify; solve [leaf]
    | apply keeps_send_on; intro; solve [leaf]
    | apply keeps_bind; [| intro]
    | match goal with
      | |- keeps _ (match ?x with _ => _ end) => destruct x
      | |- keeps _ (let (_, _) := ?x in _) => destruct x
      end ].

(** ** Framed predicates

    A predicate that looks at the reset channel and at the flag [closed]
    only, and that survives setting the flag, is kept by every operation
    as soon as [Reset] and [WaitForReset] keep it: nothing else assigns
    [c.reset], and nothing assigns [false] to [c.closed]. *)

(** Closes a goal about one field update with the frame property [H]. *)
Ltac framed_leaf H :=
  let c := fresh "c" in
  let Hc := fresh "Hc" in
  intros c Hc; apply (H c); [reflexivity | cbn; auto | exact Hc].

Ltac kept_leaf :=
  idtac;
  match goal with
  | H : framed _ |- _ => framed_leaf H
  end.

Section Kept.

Variable P : WebRTCPeer -> Prop.
Hypothesis P_framed : framed P.
Hypothesis kept_Reset : keeps P Reset.
Hypothesis kept_WaitForReset : keeps P WaitForReset.


Lemma kept_Write b : keeps P (Write b).
Proof. unfold Write. keeps_with kept_leaf. Qed.

Lemma kept_cleanup hook :
  (forall dc, keeps P (hook dc)) -> keeps P (cleanup hook).
Proof. intros Hh. unfold cleanup. keeps_with kept_leaf. apply Hh. Qed.

Lemma kept_Close hook :
  (forall dc, keeps P (hook dc)) -> keeps P (Close hook).
Proof.
  intros Hh. unfold Close.
  pose proof (@kept_cleanup hook Hh). 
  keeps_with kept_leaf.
Qed.

Lemma kept_dc_OnClose hook :
  (forall dc, keeps P (hook dc)) -> keeps P (dc_OnClose hook).
Proof.
  intros Hh. unfold dc_OnClose, log. pose proof (@kept_Close hook Hh).
  keeps_with kept_leaf.
Qed.

Lemma kept_dataChannel_Close sync dc :
  keeps P (dataChannel_Close sync dc).
Proof.
  revert dc. induction sync as [|k IH]; intro dc; simpl.
  - keeps_with kept_leaf.
  - pose proof (@kept_dc_OnClose _ IH). keeps_with kept_leaf.
Qed.

Lemma kept_dc_OnOpen dc : keeps P (dc_OnOpen dc).
Proof. unfold dc_OnOpen. keeps_with kept_leaf. Qed.

Lemma kept_dc_OnMessage now wr msg :
  keeps P (dc_OnMessage now wr msg).
Proof. unfold dc_OnMessage, log. keeps_with kept_leaf. Qed.

Lemma kept_send_error e : keeps P (send_error e).
Proof. unfold send_error. keeps_with kept_leaf. Qed.

Lemma kept_pc_OnNegotiationNeeded offer setLocal :
  keeps P (pc_OnNegotiationNeeded offer setLocal).
Proof.
  unfold pc_OnNegotiationNeeded.
  destruct offer; [destruct setLocal|]; try apply kept_send_error.
  apply keeps_ret.
Qed.

Lemma kept_preparePeerConnection r :
  keeps P (preparePeerConnection r).
Proof. unfold preparePeerConnection. keeps_with kept_leaf. Qed.

Lemma kept_establishDataChannel r :
  keeps P (establishDataChannel r).
Proof. unfold establishDataChannel. keeps_with kept_leaf. Qed.

Lemma kept_recv_offer : keeps P recv_offer.
Proof.
  intros c H. unfold recv_offer. destruct (offerChannel c) as [ch|]; [|exact H].
  destruct (chan_recv None ch); simpl.
  apply (P_framed c); [reflexivity | auto | exact H].
Qed.

Lemma kept_recv_error : keeps P recv_error.
Proof.
  intros c H. unfold recv_error. destruct (errorChannel c) as [ch|]; [|exact H].
  destruct (chan_recv None ch); simpl.
  apply (P_framed c); [reflexivity | auto | exact H].
Qed.

Lemma kept_recv_answer : keeps P recv_answer.
Proof.
  intros c H. unfold recv_answer. destruct (answerChannel c) as [ch|]; [|exact H].
  destruct (chan_recv None ch); simpl.
  apply (P_framed c); [reflexivity | auto | exact H].
Qed.


Variables SnowflakeTimeout ReconnectTimeout : Z.
Variable LocalDescription : PeerConnection -> option SessionDescription.
Variable SetRemoteDescription :
  PeerConnection -> SessionDescription -> option Err.
Variable sync : nat.

Lemma kept_pc_OnIceComplete p :
  keeps P (pc_OnIceComplete LocalDescription p).
Proof. unfold pc_OnIceComplete. keeps_with kept_leaf. Qed.

Lemma kept_sendOfferToBroker :
  keeps P (sendOfferToBroker LocalDescription).
Proof. unfold sendOfferToBroker. keeps_with kept_leaf. Qed.

Lemma kept_retry rounds :
  keeps P (retry ReconnectTimeout LocalDescription rounds).
Proof.
  induction rounds as [|k IH]; simpl.
  - apply keeps_ret.
  - pose proof kept_sendOfferToBroker. pose proof kept_recv_answer.
    unfold log. keeps_with kept_leaf.
Qed.

Lemma kept_exchangeSDP pick rounds :
  keeps P
    (exchangeSDP ReconnectTimeout LocalDescription SetRemoteDescription sync
       pick rounds).
Proof.
  unfold exchangeSDP, log.
  pose proof (kept_retry rounds). pose proof kept_recv_offer.
  pose proof kept_recv_error.
  pose proof (@kept_Close _ (kept_dataChannel_Close sync)).
  keeps_with kept_leaf.
Qed.

Lemma kept_staleness_round now :
  keeps P (staleness_round SnowflakeTimeout sync now).
Proof.
  unfold staleness_round, log.
  pose proof (@kept_Close _ (kept_dataChannel_Close sync)).
  keeps_with kept_leaf.
Qed.

Lemma kept_callback cb :
  keeps P (callback LocalDescription sync cb).
Proof.
  destruct cb; simpl.
  - apply kept_pc_OnNegotiationNeeded.
  - apply keeps_ret.
  - apply kept_pc_OnIceComplete.
  - apply keeps_panic.
  - apply kept_dc_OnOpen.
  - apply kept_dc_OnClose, kept_dataChannel_Close.
  - apply kept_dc_OnMessage.
Qed.

Lemma kept_callbacks cbs :
  keeps P (callbacks LocalDescription sync cbs).
Proof.
  induction cbs as [|cb rest IH]; simpl.
  - apply keeps_ret.
  - pose proof (kept_callback cb). keeps_with kept_leaf.
Qed.

Lemma kept_Connect newPC newDC cbs pick rounds :
  keeps P
    (Connect ReconnectTimeout LocalDescription SetRemoteDescription sync
       newPC newDC cbs pick rounds).
Proof.
  unfold Connect.
  pose proof (kept_preparePeerConnection newPC).
  pose proof (kept_establishDataChannel newDC).
  pose proof (kept_callbacks cbs).
  pose proof (kept_exchangeSDP pick rounds).
  keeps_with kept_leaf.
Qed.

Lemma kept_run_op op :
  keeps P
    (run_op SnowflakeTimeout ReconnectTimeout LocalDescription
       SetRemoteDescription sync op).
Proof.
  destruct op; simpl.
  - pose proof (kept_Write b). keeps_with kept_leaf.
  - pose proof (@kept_Close _ (kept_dataChannel_Close sync)).
    keeps_with kept_leaf.
  - apply kept_Reset.
  - apply kept_WaitForReset.
  - pose proof (kept_Connect newPC newDC cbs pick rounds).
    keeps_with kept_leaf.
  - apply kept_callback.
  - keeps_with kept_leaf.
  - pose proof (kept_staleness_round now). keeps_with kept_leaf.
  - unfold woken_sender. keeps_with kept_leaf.
Qed.

Lemma kept_run_ops ops c :
  P c ->
  P
    (run_ops SnowflakeTimeout ReconnectTimeout LocalDescription
       SetRemoteDescription sync ops c).
Proof.
  revert c. induction ops as [|op rest IH]; intros c H; simpl; [exact H|].
  pose proof (kept_run_op op c H) as Hop.
  destruct (run_op _ _ _ _ _ op c) as [[a| |msg] c']; simpl in Hop; auto.
Qed.

End Kept.

(** ** The closed flag is never taken back *)

Lemma is_closed_framed : framed is_closed.
Proof. intros c c' _ H Hc. apply H, Hc. Qed.

Lemma is_closed_Reset : keeps is_closed Reset.
Proof.
  unfold Reset. keeps_with ltac:(idtac; intros ? Hc; exact Hc).
Qed.

Lemma is_closed_WaitForReset : keeps is_closed WaitForReset.
Proof.
  intros c H. unfold WaitForReset. destruct (reset c) as [ch|]; [|exact H].
  destruct (chan_recv tt ch) as [[a| |msg] ch']; exact H.
Qed.

Lemma is_closed_dataChannel_Close sync dc :
  keeps is_closed (dataChannel_Close sync dc).
Proof.
  apply kept_dataChannel_Close;
    [exact is_closed_framed | exact is_closed_Reset].
Qed.

Lemma is_closed_cleanup hook :
  (forall dc, keeps is_closed (hook dc)) -> keeps is_closed (cleanup hook).
Proof. apply kept_cleanup. exact is_closed_framed. Qed.

Lemma is_closed_run_ops T1 T2 LD SRD sync ops c :
  is_closed c -> is_closed (run_ops T1 T2 LD SRD sync ops c).
Proof.
  apply kept_run_ops;
    [exact is_closed_framed | exact is_closed_Reset
    | exact is_closed_WaitForReset].
Qed.

(** ** Closing *)

(** A closed callback that finds the channel reference cleared does
    nothing but log; so [dataChannel.Close()], asked for with the
    reference cleared, only records the request. *)
Lemma dc_OnClose_cleared hook c :
  transport c = None ->
  dc_OnClose hook c = (Returned tt, emit (EvLog LogOnCloseLocally) c).
Proof.
  intros H. unfold dc_OnClose, bind, get, log, modify. rewrite H. reflexivity.
Qed.

Lemma dataChannel_Close_cleared sync dc c :
  transport c = None ->
  dataChannel_Close sync dc c =
  (Returned tt,
   match sync with
   | O => emit (EvDataChannelClose dc) c
   | S _ => emit (EvLog LogOnCloseLocally) (emit (EvDataChannelClose dc) c)
   end).
Proof.
  intros H. destruct sync as [|k]; simpl.
  - reflexivity.
  - unfold bind at 1. unfold modify at 1. unfold bind.
    rewrite dc_OnClose_cleared by exact H. reflexivity.
Qed.

Lemma pc_closes_app tr1 tr2 :
  pc_closes (tr1 ++ tr2) = pc_closes tr1 + pc_closes tr2.
Proof.
  induction tr1 as [|e tr1 IH]; simpl; [reflexivity|].
  destruct e; simpl; rewrite IH; reflexivity.
Qed.

Lemma Close_when_closed hook c :
  closed c = true -> Close hook c = (Returned None, c).
Proof. intros H. unfold Close, bind, get. rewrite H. reflexivity. Qed.

Lemma Close_when_open hook c :
  closed c = false ->
  Close hook c = (cleanup hook ;; Reset ;; ret None) (set_closed true c).
Proof. intros H. unfold Close at 1, bind at 1, get. rewrite H. reflexivity. Qed.

Lemma Close_closes sync c :
  closed (snd (Close (dataChannel_Close sync) c)) = true.
Proof.
  destruct (closed c) eqn:Hc.
  - rewrite Close_when_closed by exact Hc. exact Hc.
  - rewrite Close_when_open by exact Hc.
    assert (K : keeps is_closed
                  (cleanup (dataChannel_Close sync) ;; Reset ;;
                   ret (None : option Err))).
    { pose proof (@is_closed_cleanup _ (is_closed_dataChannel_Close sync)).
      pose proof is_closed_Reset. keeps_with closed_leaf. }
    apply K. reflexivity.
Qed.

Lemma Reset_trace c : trace (snd (Reset c)) = trace c /\ pc (snd (Reset c)) = pc c.
Proof.
  unfold Reset, bind, get, send_on. destruct (reset c) as [ch|]; simpl; auto.
  destruct (chan_send ch tt) as [[a| |msg] ch']; simpl; auto.
Qed.

(** Releasing the engine connection closes it once; nothing else in the
    closing path closes or acquires one. *)
Ltac balance_leaf :=
  unfold engine_balance; intros; cbn in *; rewrite ?pc_closes_app; cbn; lia.

Lemma balance_release n :
  keeps (fun c => engine_balance c = n)
    (c <- get ;;
     match pc c with
     | Some p => modify (emit (EvPeerConnectionClose p)) ;; modify (set_pc None)
     | None => ret tt
     end).
Proof.
  intros c H. unfold bind, get, modify, ret. unfold engine_balance in *.
  destruct (pc c) as [p|] eqn:E; cbn; rewrite ?E; [|exact H].
  rewrite pc_closes_app. cbn. lia.
Qed.

Lemma balance_Reset n : keeps (fun c => engine_balance c = n) Reset.
Proof. unfold Reset. keeps_with balance_leaf. Qed.

Lemma balance_cleanup hook n :
  (forall dc, keeps (fun c => engine_balance c = n) (hook dc)) ->
  keeps (fun c => engine_balance c = n) (cleanup hook).
Proof.
  intros Hh. unfold cleanup. pose proof (balance_release n).
  keeps_with balance_leaf. apply Hh.
Qed.

Lemma balance_Close hook n :
  (forall dc, keeps (fun c => engine_balance c = n) (hook dc)) ->
  keeps (fun c => engine_balance c = n) (Close hook).
Proof.
  intros Hh. unfold Close.
  pose proof (@balance_cleanup hook n Hh). pose proof (balance_Reset n).
  keeps_with balance_leaf.
Qed.

Lemma balance_dataChannel_Close sync n dc :
  keeps (fun c => engine_balance c = n) (dataChannel_Close sync dc).
Proof.
  revert dc. induction sync as [|k IH]; intro dc; simpl.
  - keeps_with balance_leaf.
  - pose proof (@balance_Close _ n IH). unfold dc_OnClose, log.
    keeps_with balance_leaf.
Qed.

Ltac no_engine_leaf :=
  unfold no_engine; intros; cbn in *; solve [assumption | reflexivity].

Lemma no_engine_Reset : keeps no_engine Reset.
Proof. unfold Reset. keeps_with no_engine_leaf. Qed.

Lemma no_engine_cleanup hook :
  (forall dc, keeps no_engine (hook dc)) -> keeps no_engine (cleanup hook).
Proof. intros Hh. unfold cleanup. keeps_with no_engine_leaf. apply Hh. Qed.

Lemma no_engine_Close hook :
  (forall dc, keeps no_engine (hook dc)) -> keeps no_engine (Close hook).
Proof.
  intros Hh. unfold Close.
  pose proof (@no_engine_cleanup hook Hh). pose proof no_engine_Reset.
  keeps_with no_engine_leaf.
Qed.

Lemma no_engine_dataChannel_Close sync dc :
  keeps no_engine (dataChannel_Close sync dc).
Proof.
  revert dc. induction sync as [|k IH]; intro dc; simpl.
  - keeps_with no_engine_leaf.
  - pose proof (@no_engine_Close _ IH). unfold dc_OnClose, log.
    keeps_with no_engine_leaf.
Qed.

Lemma Close_pc_closes sync c :
  let c' := snd (Close (dataChannel_Close sync) c) in
  pc_closes (trace c') =
  pc_closes (trace c) +
  match pc c, pc c' with
  | Some _, None => 1
  | _, _ => 0
  end.
Proof.
  intros c'.
  pose proof (@balance_Close _ (engine_balance c)
                (balance_dataChannel_Close sync _) c eq_refl) as B.
  pose proof (@no_engine_Close _ (no_engine_dataChannel_Close sync) c) as N.
  fold c' in B, N. unfold engine_balance, no_engine in *.
  destruct (pc c) as [p|]; [destruct (pc c')|rewrite (N eq_refl) in B]; lia.
Qed.

Section CloseIdempotent.

Variables SnowflakeTimeout ReconnectTimeout : Z.
Variable LocalDescription : PeerConnection -> option SessionDescription.
Variable SetRemoteDescription :
  PeerConnection -> SessionDescription -> option Err.
Variable sync : nat.

Lemma run_Close_once c :
  run_ops SnowflakeTimeout ReconnectTimeout LocalDescription
    SetRemoteDescription sync [OpClose] c =
  snd (Close (dataChannel_Close sync) c).
Proof.
  simpl. unfold bind.
  destruct (Close (dataChannel_Close sync) c) as [[a| |msg] c']; reflexivity.
Qed.

Lemma run_Close_closed N c :
  is_closed c ->
  run_ops SnowflakeTimeout ReconnectTimeout LocalDescription
    SetRemoteDescription sync (repeat OpClose N) c = c.
Proof.
  intros H. induction N as [|N IH]; simpl; [reflexivity|].
  unfold bind. rewrite Close_when_closed by exact H. simpl. exact IH.
Qed.

(** C2: [Close] called [N >= 1] times leaves the peer as one call does
    (state and calls made to the collaborators alike); the flag [closed]
    is set by the first call and no operation ever clears it; a call made
    with the flag set returns nil and changes nothing; the engine
    connection is closed once, by the call that releases it. *)
Theorem Close_idempotent (N : nat) (c : WebRTCPeer) :
  1 <= N ->
  let run := run_ops SnowflakeTimeout ReconnectTimeout LocalDescription
               SetRemoteDescription sync in
  let once := run [OpClose] c in
  run (repeat OpClose N) c = once /\
  is_closed once /\
  (forall c', is_closed c' ->
              Close (dataChannel_Close sync) c' = (Returned None, c')) /\
  pc_closes (trace once) =
    pc_closes (trace c) +
    match pc c, pc once with
    | Some _, None => 1
    | _, _ => 0
    end /\
  (forall ops c', is_closed c' -> is_closed (run ops c')).
Proof.
  intros HN run once.
  assert (Hclosed : is_closed once).
  { unfold once, run. rewrite run_Close_once. apply Close_closes. }
  repeat split.
  - destruct N as [|N]; [lia|]. unfold once, run. rewrite run_Close_once.
    simpl. unfold bind.
    pose proof (Close_closes sync c) as Hc.
    destruct (Close (dataChannel_Close sync) c) as [[a| |msg] c'];
      simpl in *; try reflexivity; apply run_Close_closed; exact Hc.
  - exact Hclosed.
  - intros c' H. apply Close_when_closed. exact H.
  - unfold once, run. rewrite run_Close_once. apply Close_pc_closes.
  - intros ops c' H. apply is_closed_run_ops. exact H.
Qed.

End CloseIdempotent.

(** A peer that holds an engine connection and an open channel. *)
Lemma Close_idempotent_witness :
  let c := set_transport (Some 5) (set_pc (Some 3) (NewWebRTCPeer "a" None)) in
  let run := run_ops 30 10 (fun _ => None) (fun _ _ => None) 1 in
  1 <= 3 /\
  run (repeat OpClose 3) c = run [OpClose] c /\
  pc_closes (trace (run [OpClose] c)) = 1.
Proof.
  intros c run. split; [lia|].
  destruct (Close_idempotent 30 10 (fun _ => None) (fun _ _ => None) 1 3 c)
    as (H1 & _ & _ & H4 & _); [lia|].
  split; [exact H1|exact H4].
Defined.

(** ** The reset slot *)

Lemma reset_slot_ok_framed : framed reset_slot_ok.
Proof.
  intros c c' Hr _ (ch & H & Hrest). exists ch. rewrite Hr. auto.
Qed.

Lemma reset_slot_ok_Reset : keeps reset_slot_ok Reset.
Proof.
  intros c (ch & H & Hcap & Hcl & Hbuf).
  unfold Reset, bind, get, send_on, chan_send. rewrite H, Hcl, Hcap.
  destruct (ch_recvq ch) as [|k] eqn:Hq; simpl.
  - destruct Hbuf as [[Hb Hs] | [Hb _]]; rewrite Hb; simpl.
    + eexists; repeat split; simpl; auto.
    + eexists; repeat split; simpl; auto.
  - destruct Hbuf as [[Hb Hs] | [_ Hb]]; [|discriminate].
    eexists; repeat split; simpl; auto.
Qed.

Lemma reset_slot_ok_WaitForReset : keeps reset_slot_ok WaitForReset.
Proof.
  intros c (ch & H & Hcap & Hcl & Hbuf).
  unfold WaitForReset, chan_recv. rewrite H, Hcl.
  destruct Hbuf as [[Hb Hs] | [Hb Hq]]; rewrite Hb.
  - rewrite Hs. simpl. eexists; repeat split; simpl; auto.
  - destruct (ch_sendq ch) as [|[] senders]; simpl;
      eexists; repeat split; simpl; auto.
Qed.

Lemma reset_slot_ok_new uid b : reset_slot_ok (NewWebRTCPeer uid b).
Proof. eexists; repeat split; simpl; auto. Qed.

Lemma reset_slot_ok_run_ops T1 T2 LD SRD sync ops c :
  reset_slot_ok c -> reset_slot_ok (run_ops T1 T2 LD SRD sync ops c).
Proof.
  apply kept_run_ops;
    [ exact reset_slot_ok_framed | exact reset_slot_ok_Reset
    | exact reset_slot_ok_WaitForReset ].
Qed.

(** With the slot full and nobody receiving, each [WaitForReset] takes
    the signal of the slot and lets in the one of the [Reset] that parked
    first. *)
Lemma waits_release j :
  forall c ch,
    reset c = Some ch -> ch_buf ch = [tt] -> ch_closed ch = false ->
    ch_recvq ch = 0 -> j <= length (ch_sendq ch) ->
    exists c',
      waits j c = (Returned tt, c') /\
      slot c' = [tt] /\ waiters c' = 0 /\
      length (parked c') = length (ch_sendq ch) - j.
Proof.
  induction j as [|j IH]; intros c ch H Hb Hcl Hq Hj.
  - exists c. unfold slot, waiters, parked. rewrite H, Hb, Hq.
    rewrite Nat.sub_0_r. repeat split.
  - destruct (ch_sendq ch) as [|[] senders] eqn:Hs; simpl in Hj; [lia|].
    set (ch1 := MkChan [tt] (ch_cap ch) false 0 senders).
    assert (E : WaitForReset c = (Returned tt, set_reset (Some ch1) c)).
    { unfold WaitForReset, chan_recv. rewrite H, Hb, Hcl, Hs, Hq.
      reflexivity. }
    destruct (IH (set_reset (Some ch1) c) ch1) as (c' & Hw & H1 & H2 & H3);
      try reflexivity.
    { simpl. lia. }
    exists c'. split; [|split; [exact H1|split; [exact H2|exact H3]]].
    simpl. unfold bind. rewrite E. exact Hw.
Qed.

(** C1 (amended): in every state that a peer made by [NewWebRTCPeer] can
    reach, [Reset] returns at once when the slot is empty: the signal is
    queued, or handed to a goroutine parked in [WaitForReset].  When the
    slot holds a signal that was not consumed, nobody is receiving and
    [Reset] parks behind the calls of [Reset] that parked before it; the
    slot is left holding that one signal.  The calls of [WaitForReset]
    that follow return one by one, each taking the signal of the slot and
    letting in the signal of the [Reset] that parked first, which is
    thereby released; so the new [Reset] is released by the time as many
    of them were made as calls of [Reset] were parked.  No signal is
    dropped and none replaces another: every [Reset] adds exactly one to
    the signals outstanding, every [WaitForReset] takes exactly one. *)
Theorem Reset_single_slot T1 T2 LD SRD sync uid b ops :
  let c := run_ops T1 T2 LD SRD sync ops (NewWebRTCPeer uid b) in
  match slot c with
  | [] =>
      parked c = [] /\
      exists c',
        Reset c = (Returned tt, c') /\ parked c' = [] /\
        match waiters c with
        | O => slot c' = [tt] /\ waiters c' = 0
        | S k => slot c' = [] /\ waiters c' = k
        end
  | _ :: _ =>
      slot c = [tt] /\ waiters c = 0 /\
      exists c',
        Reset c = (Blocked, c') /\
        slot c' = [tt] /\ waiters c' = 0 /\ parked c' = parked c ++ [tt] /\
        forall j, j <= length (parked c') ->
          exists c'',
            waits j c' = (Returned tt, c'') /\
            slot c'' = [tt] /\ waiters c'' = 0 /\
            length (parked c'') = length (parked c') - j
  end /\
  outstanding (snd (Reset c)) = (outstanding c + 1)%Z /\
  outstanding (snd (WaitForReset c)) = (outstanding c - 1)%Z.
Proof.
  intros c.
  assert (Hok : reset_slot_ok c).
  { apply reset_slot_ok_run_ops, reset_slot_ok_new. }
  destruct Hok as (ch & H & Hcap & Hcl & Hbuf).
  split; [|split].
  - unfold slot, waiters, parked, Reset, bind, get, send_on, chan_send.
    rewrite H, Hcl, Hcap.
    destruct Hbuf as [[Hb Hs] | [Hb Hq]]; rewrite Hb.
    + split; [exact Hs|]. rewrite Hs.
      destruct (ch_recvq ch) as [|k]; simpl; eexists; repeat split.
    + rewrite Hq. simpl. split; [reflexivity|]. split; [reflexivity|].
      eexists. split; [reflexivity|]. simpl.
      split; [reflexivity|]. split; [reflexivity|]. split; [reflexivity|].
      intros j Hj.
      apply (waits_release j
               (set_reset
                  (Some (MkChan [tt] 1 false 0 (ch_sendq ch ++ [tt])))
                  c)
               (MkChan [tt] 1 false 0 (ch_sendq ch ++ [tt])));
        try reflexivity; assumption.
  - unfold outstanding, slot, waiters, parked, Reset, bind, get, send_on,
      chan_send.
    rewrite H, Hcl, Hcap.
    destruct Hbuf as [[Hb Hs] | [Hb Hq]]; rewrite Hb.
    + rewrite Hs.
      destruct (ch_recvq ch) as [|k]; cbn -[Z.of_nat Z.sub Z.add]; lia.
    + rewrite Hq. cbn -[Z.of_nat Z.sub Z.add]. rewrite length_app.
      cbn -[Z.of_nat Z.sub Z.add]. lia.
  - unfold outstanding, slot, waiters, parked, WaitForReset, chan_recv.
    rewrite H, Hcl.
    destruct Hbuf as [[Hb Hs] | [Hb Hq]]; rewrite Hb.
    + rewrite Hs. cbn -[Z.of_nat Z.sub Z.add]. lia.
    + rewrite Hq.
      destruct (ch_sendq ch) as [|[] senders];
        cbn -[Z.of_nat Z.sub Z.add]; lia.
Qed.

(** Two calls of [Reset] parked behind a pending signal: both are
    released by the two calls of [WaitForReset] that follow. *)
Lemma Reset_single_slot_witness :
  let c :=
    run_ops 30 10 (fun _ => None) (fun _ _ => None) 0 [OpReset; OpReset]
      (NewWebRTCPeer "a" None) in
  slot c = [tt] /\ parked c = [tt] /\
  fst (Reset c) = Blocked /\
  parked (snd (Reset c)) = [tt; tt] /\
  2 <= length (parked (snd (Reset c))) /\
  exists c'',
    waits 2 (snd (Reset c)) = (Returned tt, c'') /\
    slot c'' = [tt] /\ length (parked c'') = 0.
Proof.
  intros c.
  destruct (Reset_single_slot 30 10 (fun _ => None) (fun _ _ => None) 0
              "a"%string None [OpReset; OpReset])
    as ((Hs & _ & c' & E & _ & _ & Hp & Hw) & _).
  fold c in Hs, E, Hp, Hw.
  split; [exact Hs|]. split; [reflexivity|].
  rewrite E. simpl fst. simpl snd.
  split; [reflexivity|]. split; [exact Hp|].
  assert (Hl : 2 <= length (parked c')) by (rewrite Hp; simpl; lia).
  split; [exact Hl|].
  destruct (Hw 2 Hl) as (c'' & E2 & H1 & _ & H3).
  exists c''. split; [exact E2|]. split; [exact H1|].
  rewrite H3, Hp. reflexivity.
Defined.

(** C1, as stated, fails: on a fresh peer with nobody waiting, a second
    [Reset] parks behind the signal of the first, which stays in the
    slot. *)
Lemma Reset_blocks_behind_pending_signal :
  let c := snd (Reset (NewWebRTCPeer "a" None)) in
  slot c = [tt] /\ waiters c = 0 /\
  Reset c = (Blocked, set_reset (Some (MkChan [tt] 1 false 0 [tt])) c).
Proof. repeat split. Qed.

(** ** Writing *)

Lemma sends_app tr1 tr2 : sends (tr1 ++ tr2) = sends tr1 ++ sends tr2.
Proof.
  induction tr1 as [|e tr1 IH]; simpl; [reflexivity|].
  destruct e; simpl; rewrite ?IH; reflexivity.
Qed.

Lemma Write_run b c :
  Write b c =
  (Returned (length b, None),
   match transport c with
   | None =>
       set_buffer (buffer c ++ b) (emit (EvAddOutbound (length b)) c)
   | Some t => emit (EvSend t b) (emit (EvAddOutbound (length b)) c)
   end).
Proof.
  unfold Write, bind, get, modify, ret. simpl.
  destruct (transport c); reflexivity.
Qed.

(** C10: [Write(b)] returns [(len(b), nil)] in every state of the peer,
    closed or not.  With no channel the bytes are appended to the buffer
    and nothing is sent; with a channel they are sent on it and the buffer
    is left alone. *)
Theorem Write_reports_full_success (b : bytes) (c : WebRTCPeer) :
  fst (Write b c) = Returned (length b, None) /\
  buffer (snd (Write b c)) =
    match transport c with
    | None => buffer c ++ b
    | Some _ => buffer c
    end /\
  sends (trace (snd (Write b c))) =
    sends (trace c) ++
    match transport c with
    | None => []
    | Some t => [(t, b)]
    end /\
  closed (snd (Write b c)) = closed c.
Proof.
  rewrite Write_run.
  destruct (transport c) as [t|]; simpl; rewrite !sends_app; simpl;
    rewrite ?app_nil_r; auto.
Qed.

Lemma writes_buffered ws c :
  transport c = None ->
  exists c',
    writes ws c = (Returned tt, c') /\
    buffer c' = buffer c ++ concat ws /\
    transport c' = None /\
    sends (trace c') = sends (trace c).
Proof.
  revert c. induction ws as [|b ws IH]; intros c H; simpl.
  - exists c. rewrite app_nil_r. auto.
  - unfold bind at 1. rewrite Write_run, H.
    destruct (IH (set_buffer (buffer c ++ b)
                    (emit (EvAddOutbound (length b)) c)) H)
      as (c' & Hw & Hb' & Ht' & Hs').
    exists c'. rewrite Hw, Hb', Hs'. simpl.
    rewrite sends_app, <- app_assoc. simpl. rewrite app_nil_r. auto.
Qed.

Lemma writes_sent dc ws c :
  transport c = Some dc ->
  exists c',
    writes ws c = (Returned tt, c') /\
    buffer c' = buffer c /\
    transport c' = Some dc /\
    sends (trace c') = sends (trace c) ++ map (pair dc) ws.
Proof.
  revert c. induction ws as [|b ws IH]; intros c H; simpl.
  - exists c. rewrite app_nil_r. auto.
  - unfold bind at 1. rewrite Write_run, H.
    destruct (IH (emit (EvSend dc b) (emit (EvAddOutbound (length b)) c)) H)
      as (c' & Hw & Hb' & Ht' & Hs').
    exists c'. rewrite Hw, Hb', Hs'. simpl.
    rewrite !sends_app, <- !app_assoc. simpl. auto.
Qed.

(** The single [Send] that empties a buffer, if there is anything in it. *)
Lemma dc_OnOpen_flushes dc c :
  transport c = None ->
  exists c',
    dc_OnOpen dc c = (Returned tt, c') /\
    buffer c' = [] /\
    transport c' = Some dc /\
    sends (trace c') =
      sends (trace c) ++
      match buffer c with
      | [] => []
      | _ :: _ => [(dc, buffer c)]
      end.
Proof.
  intros H. unfold dc_OnOpen, bind, get, modify, ret. rewrite H.
  destruct (buffer c) as [|x l] eqn:E; simpl.
  - eexists. split; [reflexivity|]. simpl. rewrite app_nil_r. auto.
  - eexists. split; [reflexivity|]. simpl. rewrite sends_app. auto.
Qed.

(** C3: the writes [ws] made with no channel are held back (nothing is
    sent); when the channel opens, what the buffer holds goes out in one
    [Send] and the buffer is emptied; the writes [ws'] made afterwards are
    sent one by one.  The bytes that reach the channel are those buffered
    before, then those of [ws], then those of [ws'], each once. *)
Theorem buffered_writes_flushed_in_order (ws ws' : list bytes)
    (dc : DataChannel) (c : WebRTCPeer) :
  transport c = None ->
  exists c1 c2 c3 flush,
    writes ws c = (Returned tt, c1) /\
    dc_OnOpen dc c1 = (Returned tt, c2) /\
    writes ws' c2 = (Returned tt, c3) /\
    sends (trace c1) = sends (trace c) /\
    buffer c1 = buffer c ++ concat ws /\
    flush = match buffer c1 with
            | [] => []
            | _ :: _ => [(dc, buffer c1)]
            end /\
    sends (trace c2) = sends (trace c) ++ flush /\
    buffer c2 = [] /\
    sends (trace c3) = sends (trace c) ++ flush ++ map (pair dc) ws' /\
    buffer c3 = [] /\
    payload (flush ++ map (pair dc) ws') =
      buffer c ++ concat ws ++ concat ws'.
Proof.
  intros H.
  destruct (writes_buffered ws c H) as (c1 & Hw1 & Hb1 & Ht1 & Hs1).
  destruct (dc_OnOpen_flushes dc c1 Ht1) as (c2 & Ho & Hb2 & Ht2 & Hs2).
  destruct (writes_sent dc ws' c2 Ht2) as (c3 & Hw3 & Hb3 & Ht3 & Hs3).
  exists c1, c2, c3. eexists. repeat split; eauto.
  - rewrite Hs2, Hs1. reflexivity.
  - rewrite Hs3, Hs2, Hs1, <- app_assoc. reflexivity.
  - congruence.
  - unfold payload. rewrite map_app, concat_app, map_map. simpl.
    rewrite map_id, app_assoc, <- Hb1.
    destruct (buffer c1); simpl; rewrite ?app_nil_r; reflexivity.
Qed.

Lemma buffered_writes_flushed_in_order_witness :
  let c := NewWebRTCPeer "a" None in
  let h := [Byte.x68; Byte.x65] in
  let l := [Byte.x6c; Byte.x6c; Byte.x6f] in
  let w := [Byte.x21] in
  transport c = None /\
  sends (trace (snd ((writes [h; l] ;; dc_OnOpen 7 ;; writes [w]) c))) =
    [(7, h ++ l); (7, w)].
Proof.
  intros c h l w. split; [reflexivity|].
  destruct (buffered_writes_flushed_in_order [h; l] [w] 7 c eq_refl)
    as (c1 & c2 & c3 & flush & H1 & H2 & H3 & _ & Hb & Hf & _ & _ & Hs & _).
  unfold bind. rewrite H1, H2, H3. simpl. rewrite Hs, Hf, Hb. reflexivity.
Defined.

(** ** Fatal assertions *)

(** C7: a second channel, a second open event, a channel offered by the
    remote side and a short write into the bridge each end in a panic. *)
Theorem invariant_violations_panic :
  (forall r t c,
      transport c = Some t ->
      establishDataChannel r c =
      (Panicked "Unexpected datachannel already exists!", c)) /\
  (forall dc t c,
      transport c = Some t ->
      dc_OnOpen dc c = (Panicked "WebRTC: transport already exists.", c)) /\
  (forall channel c,
      pc_OnDataChannel channel c = (Panicked "Unexpected OnDataChannel!", c)) /\
  (forall now n err msg w c,
      writePipe c = Some w ->
      n <> length msg ->
      fst (dc_OnMessage now (n, err) msg c) = Panicked "short write").
Proof.
  repeat split.
  - intros r t c H. unfold establishDataChannel, bind, get, panic.
    rewrite H. reflexivity.
  - intros dc t c H. unfold dc_OnOpen, bind, get, panic.
    rewrite H. reflexivity.
  - intros now n err msg w c H Hn.
    apply Nat.eqb_neq in Hn.
    unfold dc_OnMessage, bind, get, log, modify, panic, ret.
    destruct (length msg <=? 0); simpl; rewrite H; simpl;
      destruct err; simpl; rewrite Hn; reflexivity.
Qed.

Lemma invariant_violations_panic_witness :
  let c := NewWebRTCPeer "a" None in
  let open := set_transport (Some 7) c in
  fst (establishDataChannel (Ok 8) open) =
    Panicked "Unexpected datachannel already exists!" /\
  fst (dc_OnOpen 7 open) = Panicked "WebRTC: transport already exists." /\
  fst (pc_OnDataChannel 9 c) = Panicked "Unexpected OnDataChannel!" /\
  fst (dc_OnMessage 0%Z (1, None) [Byte.x68; Byte.x69] c) =
    Panicked "short write".
Proof.
  intros c open.
  destruct invariant_violations_panic as (H1 & H2 & H3 & H4).
  split; [|split; [|split]].
  - rewrite (H1 (Ok 8) 7 open eq_refl). reflexivity.
  - rewrite (H2 7 7 open eq_refl). reflexivity.
  - rewrite (H3 9 c). reflexivity.
  - apply (H4 0%Z 1 None [Byte.x68; Byte.x69] ThePipeWriter c eq_refl).
    simpl. lia.
Defined.

(** ** The closed callback *)

Ltac no_channel_leaf :=
  unfold no_channel; intros; cbn in *; solve [assumption | reflexivity].

Lemma no_channel_Reset : keeps no_channel Reset.
Proof. unfold Reset. keeps_with no_channel_leaf. Qed.

Lemma no_channel_cleanup hook :
  (forall dc, keeps no_channel (hook dc)) -> keeps no_channel (cleanup hook).
Proof. intros Hh. unfold cleanup. keeps_with no_channel_leaf. apply Hh. Qed.

Lemma no_channel_Close hook :
  (forall dc, keeps no_channel (hook dc)) -> keeps no_channel (Close hook).
Proof.
  intros Hh. unfold Close.
  pose proof (no_channel_cleanup hook Hh). pose proof no_channel_Reset.
  keeps_with no_channel_leaf.
Qed.

Lemma no_channel_dataChannel_Close sync dc :
  keeps no_channel (dataChannel_Close sync dc).
Proof.
  revert dc. induction sync as [|k IH]; intro dc; simpl.
  - keeps_with no_channel_leaf.
  - pose proof (no_channel_Close _ IH). unfold dc_OnClose, log.
    keeps_with no_channel_leaf.
Qed.

(** [cleanup] run to its end. *)
Lemma cleanup_closable sync c :
  closable (offerChannel c) = true ->
  closable (answerChannel c) = true ->
  closable (errorChannel c) = true ->
  exists c',
    cleanup (dataChannel_Close sync) c = (Returned tt, c') /\
    trace c' = trace c ++ cleanup_calls sync c /\
    transport c' = None /\ pc c' = None /\ writePipe c' = None /\
    closed c' = closed c /\ reset c' = reset c.
Proof.
  destruct c as [i p t br oc ac ec wp lr buf rs cl tr].
  unfold closable. simpl. intros H1 H2 H3.
  destruct oc as [[b1 k1 [|] q1]|]; try discriminate;
  destruct ac as [[b2 k2 [|] q2]|]; try discriminate;
  destruct ec as [[b3 k3 [|] q3]|]; try discriminate;
  destruct wp as [w|]; destruct t as [d|]; destruct p as [p|];
  unfold cleanup, cleanup_calls, bind, get, modify, lift, ret;
  cbn -[dataChannel_Close];
  rewrite ?dataChannel_Close_cleared by reflexivity;
  destruct sync; cbn;
  (eexists; split; [reflexivity|]); cbn; rewrite <- ?app_assoc; cbn;
  rewrite ?app_nil_r; repeat split.
Qed.

(** C6: a closed callback that finds no channel reference does nothing
    (but log that the close was local).  One that finds a reference clears
    it and calls [Close].  [cleanup] clears the reference before it asks
    the engine to close the channel: a closed callback that the engine
    delivers from inside that request takes the local branch, never the
    remote one. *)
Theorem closed_callback_tells_local_from_remote :
  (forall hook c,
      transport c = None ->
      dc_OnClose hook c = (Returned tt, emit (EvLog LogOnCloseLocally) c)) /\
  (forall sync t c,
      transport c = Some t ->
      dc_OnClose (dataChannel_Close sync) c =
        (Close (dataChannel_Close sync) ;; ret tt)
          (set_transport None (emit (EvLog LogOnCloseRemotely) c)) /\
      transport (snd (dc_OnClose (dataChannel_Close sync) c)) = None /\
      is_closed (snd (dc_OnClose (dataChannel_Close sync) c))) /\
  (forall sync t c,
      transport c = Some t ->
      closable (offerChannel c) = true ->
      closable (answerChannel c) = true ->
      closable (errorChannel c) = true ->
      exists c',
        cleanup (dataChannel_Close sync) c = (Returned tt, c') /\
        transport c' = None /\
        trace c' = trace c ++ cleanup_calls sync c /\
        cleanup_calls sync c =
          match writePipe c with
          | Some _ => [EvPipeClose]
          | None => []
          end ++
          EvDataChannelClose t ::
          match sync with
          | O => []
          | S _ => [EvLog LogOnCloseLocally]
          end ++
          match pc c with
          | Some p => [EvPeerConnectionClose p]
          | None => []
          end /\
        ~ In (EvLog LogOnCloseRemotely) (cleanup_calls sync c)).
Proof.
  split; [|split].
  - intros hook c H. apply dc_OnClose_cleared, H.
  - intros sync t c H.
    assert (E : dc_OnClose (dataChannel_Close sync) c =
                (Close (dataChannel_Close sync) ;; ret tt)
                  (set_transport None (emit (EvLog LogOnCloseRemotely) c))).
    { unfold dc_OnClose, bind, get, log, modify. rewrite H. reflexivity. }
    split; [exact E|]. rewrite E. unfold bind.
    pose proof (Close_closes sync
                  (set_transport None (emit (EvLog LogOnCloseRemotely) c)))
      as Hc.
    pose proof (no_channel_Close _ (no_channel_dataChannel_Close sync)
                  (set_transport None (emit (EvLog LogOnCloseRemotely) c))
                  eq_refl) as Hn.
    destruct (Close (dataChannel_Close sync) _) as [[a| |msg] c'];
      simpl in *; auto.
  - intros sync t c H H1 H2 H3.
    destruct (cleanup_closable sync c H1 H2 H3) as (c' & E & Ht & Hn & _).
    exists c'. split; [exact E|]. split; [exact Hn|]. split; [exact Ht|].
    split.
    + unfold cleanup_calls. rewrite H. reflexivity.
    + unfold cleanup_calls. rewrite H.
      destruct (writePipe c), sync, (pc c); simpl; intuition discriminate.
Qed.

Lemma closed_callback_tells_local_from_remote_witness :
  let c := set_transport (Some 5) (set_pc (Some 3) (NewWebRTCPeer "a" None)) in
  transport c = Some 5 /\
  transport (snd (dc_OnClose (dataChannel_Close 1) c)) = None /\
  trace (snd (cleanup (dataChannel_Close 1) c)) =
    [EvPipeClose; EvDataChannelClose 5; EvLog LogOnCloseLocally;
     EvPeerConnectionClose 3] /\
  dc_OnClose (dataChannel_Close 1) (snd (cleanup (dataChannel_Close 1) c)) =
    (Returned tt,
     emit (EvLog LogOnCloseLocally) (snd (cleanup (dataChannel_Close 1) c))).
Proof.
  intros c.
  destruct closed_callback_tells_local_from_remote as (H1 & H2 & H3).
  split; [reflexivity|]. split; [|split].
  - apply (H2 1 5 c). reflexivity.
  - destruct (H3 1 5 c eq_refl eq_refl eq_refl eq_refl)
      as (c' & E & _ & Ht & Hc & _).
    rewrite E. simpl. rewrite Ht. reflexivity.
  - apply H1.
    destruct (H3 1 5 c eq_refl eq_refl eq_refl eq_refl) as (c' & E & Ht & _).
    rewrite E. exact Ht.
Defined.

(** ** The retry loop *)

Section Retry.

Variable ReconnectTimeout : Z.
Variable LocalDescription : PeerConnection -> option SessionDescription.

Lemma bind_returned A B (m : M A) (k : A -> M B) c a c' :
  m c = (Returned a, c') -> bind m k c = k a c'.
Proof. intros H. unfold bind. rewrite H. reflexivity. Qed.

Lemma sendOfferToBroker_asks c b p n :
  broker c = Some b ->
  pc c = Some p ->
  answerChannel c = Some (MkChan [] (S n) false 0 []) ->
  sendOfferToBroker LocalDescription c =
  (Returned tt,
   MkPeer (id c) (pc c) (transport c) (Some (asked 1 b)) (offerChannel c)
     (Some (MkChan [accepted (replies b (calls b) (LocalDescription p))]
              (S n) false 0 []))
     (errorChannel c) (writePipe c) (lastReceive c) (buffer c) (reset c)
     (closed c) (trace c ++ [EvNegotiate (LocalDescription p)])).
Proof.
  intros Hb Hp Ha.
  unfold sendOfferToBroker. unfold bind at 1. unfold get.
  rewrite Hb, Hp. unfold bind at 1. unfold modify at 1.
  unfold bind at 1. unfold modify at 1.
  unfold asked. rewrite Nat.add_1_r.
  destruct (replies b (calls b) (LocalDescription p)) as [[a|] [e|]];
    unfold bind, get, lift, modify, chan_send; simpl; rewrite Ha; simpl;
    unfold set_answerChannel, set_broker, emit; simpl; rewrite ?Hp;
    reflexivity.
Qed.

(** One round of the loop, with the answer channel free. *)
Lemma retry_round r c b p n :
  broker c = Some b ->
  pc c = Some p ->
  answerChannel c = Some (MkChan [] (S n) false 0 []) ->
  retry ReconnectTimeout LocalDescription (S r) c =
  match replies b (calls b) (LocalDescription p) with
  | (Some a, None) =>
      (Returned (Some a),
       after_rounds (asked 1 b)
         (trace c ++ [EvNegotiate (LocalDescription p)]) c)
  | _ =>
      retry ReconnectTimeout LocalDescription r
        (after_rounds (asked 1 b)
           (trace c ++
            failed_rounds (LocalDescription p) (Second * ReconnectTimeout) 1)
           c)
  end.
Proof.
  intros Hb Hp Ha.
  pose proof (sendOfferToBroker_asks c b p n Hb Hp Ha) as Hsend.
  cbn [retry].
  erewrite bind_returned; [|unfold go; rewrite Hsend; reflexivity].
  erewrite bind_returned; [|unfold recv_answer, chan_recv; reflexivity].
  unfold after_rounds. rewrite Ha.
  destruct (replies b (calls b) (LocalDescription p)) as [[a|] [e|]];
    cbn [accepted negb ch_buf ch_cap ch_closed ch_recvq];
    unfold log, bind, modify, ret, emit, set_answerChannel;
    cbn [failed_rounds id pc transport broker offerChannel answerChannel
         errorChannel writePipe lastReceive buffer reset closed trace];
    rewrite <- ?app_assoc; reflexivity.
Qed.

Lemma retry_failing k :
  forall c b p n,
    broker c = Some b ->
    pc c = Some p ->
    answerChannel c = Some (MkChan [] (S n) false 0 []) ->
    (forall i, i < k ->
               failing (replies b (calls b + i) (LocalDescription p)) = true) ->
    retry ReconnectTimeout LocalDescription k c =
    (Returned None,
     after_rounds (asked k b)
       (trace c ++
        failed_rounds (LocalDescription p) (Second * ReconnectTimeout) k) c).
Proof.
  induction k as [|k IH]; intros c b p n Hb Hp Ha Hf.
  - simpl. unfold ret, after_rounds, asked. rewrite app_nil_r, Nat.add_0_r.
    destruct c; simpl in *; subst. destruct b; reflexivity.
  - rewrite (retry_round k c b p n Hb Hp Ha).
    pose proof (Hf 0 (Nat.lt_0_succ k)) as H0. rewrite Nat.add_0_r in H0.
    set (c1 := after_rounds (asked 1 b) _ c).
    assert (E : retry ReconnectTimeout LocalDescription k c1 =
                (Returned None,
                 after_rounds (asked k (asked 1 b))
                   (trace c1 ++
                    failed_rounds (LocalDescription p)
                      (Second * ReconnectTimeout) k) c1)).
    { apply (IH c1 (asked 1 b) p n); try reflexivity; try assumption.
      intros i Hi. simpl. rewrite <- Nat.add_assoc. apply Hf. simpl. lia. }
    assert (F : after_rounds (asked k (asked 1 b))
                  (trace c1 ++
                   failed_rounds (LocalDescription p)
                     (Second * ReconnectTimeout) k) c1 =
                after_rounds (asked (S k) b)
                  (trace c ++
                   failed_rounds (LocalDescription p)
                     (Second * ReconnectTimeout) (S k)) c).
    { unfold c1, after_rounds, asked. simpl.
      rewrite <- app_assoc, <- Nat.add_assoc. reflexivity. }
    rewrite F in E.
    destruct (replies b (calls b) (LocalDescription p)) as [[a|] [e|]];
      try exact E; discriminate.
Qed.

Lemma retry_answered k ans r :
  forall c b p n,
    broker c = Some b ->
    pc c = Some p ->
    answerChannel c = Some (MkChan [] (S n) false 0 []) ->
    (forall i, i < k ->
               failing (replies b (calls b + i) (LocalDescription p)) = true) ->
    replies b (calls b + k) (LocalDescription p) = (Some ans, None) ->
    retry ReconnectTimeout LocalDescription (S (k + r)) c =
    (Returned (Some ans),
     after_rounds (asked (S k) b)
       (trace c ++
        failed_rounds (LocalDescription p) (Second * ReconnectTimeout) k ++
        [EvNegotiate (LocalDescription p)]) c).
Proof.
  induction k as [|k IH]; intros c b p n Hb Hp Ha Hf Hk.
  - rewrite Nat.add_0_r in Hk. simpl Nat.add.
    rewrite (retry_round r c b p n Hb Hp Ha), Hk. reflexivity.
  - replace (S (S k + r)) with (S (S (k + r))) by lia.
    rewrite (retry_round (S (k + r)) c b p n Hb Hp Ha).
    pose proof (Hf 0 (Nat.lt_0_succ k)) as H0. rewrite Nat.add_0_r in H0.
    set (c1 := after_rounds (asked 1 b) _ c).
    assert (E : retry ReconnectTimeout LocalDescription (S (k + r)) c1 =
                (Returned (Some ans),
                 after_rounds (asked (S k) (asked 1 b))
                   (trace c1 ++
                    failed_rounds (LocalDescription p)
                      (Second * ReconnectTimeout) k ++
                    [EvNegotiate (LocalDescription p)]) c1)).
    { apply (IH c1 (asked 1 b) p n); try reflexivity; try assumption.
      - intros i Hi. simpl. rewrite <- Nat.add_assoc. apply Hf. simpl. lia.
      - simpl. rewrite <- Nat.add_assoc. exact Hk. }
    assert (F : after_rounds (asked (S k) (asked 1 b))
                  (trace c1 ++
                   failed_rounds (LocalDescription p)
                     (Second * ReconnectTimeout) k ++
                   [EvNegotiate (LocalDescription p)]) c1 =
                after_rounds (asked (S (S k)) b)
                  (trace c ++
                   failed_rounds (LocalDescription p)
                     (Second * ReconnectTimeout) (S k) ++
                   [EvNegotiate (LocalDescription p)]) c).
    { unfold c1, after_rounds, asked. simpl.
      rewrite <- app_assoc, <- Nat.add_assoc. reflexivity. }
    rewrite F in E.
    destruct (replies b (calls b) (LocalDescription p)) as [[a|] [e|]];
      try exact E; discriminate.
Qed.

End Retry.

Lemma recv_offer_ready c :
  ready (offerChannel c) = true ->
  exists v ch,
    recv_offer c = (Returned v, set_offerChannel (Some ch) c).
Proof.
  unfold ready, recv_offer, chan_recv.
  destruct (offerChannel c) as [ch|]; [|discriminate].
  destruct ch as [buf cap cl q sq]. simpl.
  destruct buf as [|v rest], cl, sq as [|s sq]; intros H; simpl in *;
    try discriminate; eauto.
Qed.

Section Exchange.

Variable ReconnectTimeout : Z.
Variable LocalDescription : PeerConnection -> option SessionDescription.
Variable SetRemoteDescription :
  PeerConnection -> SessionDescription -> option Err.
Variable sync : nat.

(** The exchange when an offer is there and the broker answers in round
    [k]: the error that comes back is the one of
    [SetRemoteDescription], the session is left open. *)
Lemma exchangeSDP_answered k ans r pick c b p n :
  ready (offerChannel c) = true ->
  ready (errorChannel c) = false \/ pick = true ->
  broker c = Some b ->
  pc c = Some p ->
  answerChannel c = Some (MkChan [] (S n) false 0 []) ->
  (forall i, i < k ->
             failing (replies b (calls b + i) (LocalDescription p)) = true) ->
  replies b (calls b + k) (LocalDescription p) = (Some ans, None) ->
  exists c',
    exchangeSDP ReconnectTimeout LocalDescription SetRemoteDescription sync
      pick (S (k + r)) c =
    (Returned (Done (SetRemoteDescription p ans)), c') /\
    closed c' = closed c /\ pc c' = pc c /\ reset c' = reset c /\
    transport c' = transport c /\
    trace c' =
      trace c ++
      failed_rounds (LocalDescription p) (Second * ReconnectTimeout) k ++
      [EvNegotiate (LocalDescription p); EvSetRemoteDescription p ans] ++
      match SetRemoteDescription p ans with
      | Some _ => [EvLog LogSetRemoteFailed]
      | None => []
      end.
Proof.
  intros Ho He Hb Hp Ha Hf Hk.
  destruct (recv_offer_ready c Ho) as (v & ch & Hr).
  set (c0 := set_offerChannel (Some ch) c) in Hr.
  pose proof (retry_answered ReconnectTimeout LocalDescription k ans r
                c0 b p n Hb Hp Ha Hf Hk) as Hretry.
  unfold exchangeSDP. unfold bind at 1. unfold get. rewrite Ho.
  assert (Hsel : (true && (negb (ready (errorChannel c)) || pick))%bool = true).
  { destruct He as [He | He]; rewrite He; simpl;
      auto using orb_true_r. }
  rewrite Hsel. unfold bind at 1. rewrite Hr.
  unfold bind at 1. rewrite Hretry.
  unfold bind at 1. unfold get. cbn -[Z.mul]. rewrite Hp.
  unfold bind at 1. unfold modify at 1.
  destruct (SetRemoteDescription p ans) as [e|]; cbn -[Z.mul];
    eexists; (split; [reflexivity|]); cbn -[Z.mul];
    repeat split; auto;
    rewrite <- ?app_assoc; cbn -[Z.mul]; rewrite <- ?app_assoc;
    reflexivity.
Qed.

(** C8: with a broker that fails [k] times and then answers, the loop is
    still retrying after any number [r <= k] of rounds, having asked the
    broker [r] times with the same offer and slept the backoff after each
    failure; no error has come out of it.  From round [k + 1] on it has
    the answer.  [exchangeSDP] then returns what [SetRemoteDescription]
    returns for that answer, whatever the broker said before. *)
Theorem broker_failures_are_retried (k : nat) (ans : SessionDescription)
    (c : WebRTCPeer) (b : BrokerChannel) (p : PeerConnection) (n : nat) :
  broker c = Some b ->
  pc c = Some p ->
  answerChannel c = Some (MkChan [] (S n) false 0 []) ->
  (forall i, i < k ->
             failing (replies b (calls b + i) (LocalDescription p)) = true) ->
  replies b (calls b + k) (LocalDescription p) = (Some ans, None) ->
  (forall r, r <= k ->
     retry ReconnectTimeout LocalDescription r c =
     (Returned None,
      after_rounds (asked r b)
        (trace c ++
         failed_rounds (LocalDescription p) (Second * ReconnectTimeout) r)
        c)) /\
  (forall r, k < r ->
     retry ReconnectTimeout LocalDescription r c =
     (Returned (Some ans),
      after_rounds (asked (S k) b)
        (trace c ++
         failed_rounds (LocalDescription p) (Second * ReconnectTimeout) k ++
         [EvNegotiate (LocalDescription p)]) c)) /\
  (forall r pick,
     k < r ->
     ready (offerChannel c) = true ->
     ready (errorChannel c) = false \/ pick = true ->
     fst (exchangeSDP ReconnectTimeout LocalDescription SetRemoteDescription
            sync pick r c) =
     Returned (Done (SetRemoteDescription p ans))).
Proof.
  intros Hb Hp Ha Hf Hk. split; [|split].
  - intros r Hr.
    apply (retry_failing ReconnectTimeout LocalDescription r c b p n);
      auto.
    intros i Hi. apply Hf. lia.
  - intros r Hr. replace r with (S (k + (r - S k))) by lia.
    apply (retry_answered ReconnectTimeout LocalDescription k ans
             (r - S k) c b p n); auto.
  - intros r pick Hr Ho He. replace r with (S (k + (r - S k))) by lia.
    destruct (exchangeSDP_answered k ans (r - S k) pick c b p n
                Ho He Hb Hp Ha Hf Hk) as (c' & E & _).
    rewrite E. reflexivity.
Qed.

End Exchange.

(** A broker that fails twice, with an error and then with no answer, and
    answers the third call. *)
Lemma broker_failures_are_retried_witness :
  let reply := fun (i : nat) (_ : option SessionDescription) =>
                 match i with
                 | 0 => (None, Some "unavailable"%string)
                 | 1 => (None, None)
                 | _ => (Some {| Sdp := "ANSWER" |}, None)
                 end in
  let b := {| replies := reply; calls := 0 |} in
  let ld := fun _ : PeerConnection => Some {| Sdp := "OFFER-1" |} in
  let srd := fun (_ : PeerConnection) (_ : SessionDescription) =>
               @None Err in
  let c := snd (pc_OnIceComplete ld 1
                  (set_pc (Some 1) (NewWebRTCPeer "a" (Some b)))) in
  fst (retry 10 ld 2 c) = Returned None /\
  fst (retry 10 ld 3 c) = Returned (Some {| Sdp := "ANSWER" |}) /\
  fst (exchangeSDP 10 ld srd 0 true 3 c) = Returned (Done None).
Proof.
  intros reply b ld srd c.
  assert (Hf : forall i, i < 2 ->
                         failing (replies b (calls b + i) (ld 1)) = true).
  { intros i Hi. destruct i as [|[|i]]; [reflexivity|reflexivity|lia]. }
  destruct (broker_failures_are_retried 10 ld srd 0 2 {| Sdp := "ANSWER" |}
              c b 1 0 eq_refl eq_refl eq_refl Hf eq_refl) as (H1 & H2 & H3).
  split; [|split].
  - rewrite (H1 2 (le_n 2)). reflexivity.
  - rewrite (H2 3 (le_n 3)). reflexivity.
  - apply (H3 3 true (le_n 3) eq_refl). right. reflexivity.
Defined.

(** ** Errors of the negotiation *)

Section Negotiation.

Variable ReconnectTimeout : Z.
Variable LocalDescription : PeerConnection -> option SessionDescription.
Variable SetRemoteDescription :
  PeerConnection -> SessionDescription -> option Err.
Variable sync : nat.

(** The error case of the [select]: the session is closed; if [Close]
    comes back, the error received is returned. *)
Lemma exchangeSDP_error_case pick rounds c ch e rest :
  errorChannel c = Some ch ->
  ch_buf ch = Some e :: rest ->
  ready (offerChannel c) = false \/ pick = false ->
  let res := exchangeSDP ReconnectTimeout LocalDescription
               SetRemoteDescription sync pick rounds c in
  is_closed (snd res) /\
  (forall x, fst res = Returned x -> x = Done (Some e)).
Proof.
  intros He Hbuf Hsel res.
  assert (Hr : ready (errorChannel c) = true).
  { unfold ready. rewrite He, Hbuf. reflexivity. }
  assert (Hs : (ready (offerChannel c) && (negb true || pick))%bool = false).
  { destruct Hsel as [H | H]; rewrite H; simpl; auto using andb_false_r. }
  assert (Hrecv : exists ch',
             chan_recv None ch = (Returned (Some e, true), ch')).
  { unfold chan_recv. rewrite Hbuf.
    destruct (ch_closed ch), (ch_sendq ch); eauto. }
  destruct Hrecv as (ch' & Hrecv).
  assert (E : res =
              (Close (dataChannel_Close sync) ;; ret (Done (Some e)))
                (emit (EvLog LogFailedOffer)
                   (set_errorChannel (Some ch') c))).
  { unfold res, exchangeSDP. unfold bind at 1. unfold get.
    rewrite Hr, Hs.
    erewrite bind_returned;
      [|unfold recv_error; rewrite He, Hrecv; reflexivity].
    unfold bind at 1. unfold log, modify at 1. reflexivity. }
  rewrite E. unfold bind.
  match goal with
  | |- context [Close ?h ?s] =>
      pose proof (Close_closes sync s) as Hc;
      destruct (Close h s) as [[a| |m] c']
  end; simpl in *; split; auto; intros x Hx; inversion Hx; reflexivity.
Qed.

(** C4 (amended): a failure to make the offer or to set the local
    description reaches [exchangeSDP] through the error channel; the
    session is then closed and [Connect] returns that error.  A failure of
    [SetRemoteDescription] is returned by [Connect] as well, but the
    session is left as it is: not closed, the engine connection kept, no
    reset signalled. *)
Theorem negotiation_errors_returned (uid : string) (p : PeerConnection)
    (d : DataChannel) (k : nat) (ans : SessionDescription) (e : Err)
    (b : BrokerChannel) (pick : bool) (r : nat) :
  (forall i, i < k ->
             failing (replies b (calls b + i) (LocalDescription p)) = true) ->
  replies b (calls b + k) (LocalDescription p) = (Some ans, None) ->
  SetRemoteDescription p ans = Some e ->
  k < r ->
  (forall ob setLocal e',
     let res := Connect ReconnectTimeout LocalDescription
                  SetRemoteDescription sync (Ok p) (Ok d)
                  [OnNegotiationNeeded (Failed e') setLocal] pick r
                  (NewWebRTCPeer uid ob) in
     fst res = Returned (Done (Some e')) /\
     is_closed (snd res) /\ pc (snd res) = None /\ slot (snd res) = [tt] /\
     pc_closes (trace (snd res)) = 1) /\
  (forall ob offer e',
     let res := Connect ReconnectTimeout LocalDescription
                  SetRemoteDescription sync (Ok p) (Ok d)
                  [OnNegotiationNeeded (Ok offer) (Some e')] pick r
                  (NewWebRTCPeer uid ob) in
     fst res = Returned (Done (Some e')) /\
     is_closed (snd res) /\ pc (snd res) = None /\ slot (snd res) = [tt] /\
     pc_closes (trace (snd res)) = 1) /\
  (forall c ch e' rest rounds,
     errorChannel c = Some ch ->
     ch_buf ch = Some e' :: rest ->
     ready (offerChannel c) = false \/ pick = false ->
     let res := exchangeSDP ReconnectTimeout LocalDescription
                  SetRemoteDescription sync pick rounds c in
     is_closed (snd res) /\
     (forall x, fst res = Returned x -> x = Done (Some e'))) /\
  (let res := Connect ReconnectTimeout LocalDescription
                SetRemoteDescription sync (Ok p) (Ok d) [OnIceComplete p]
                pick r (NewWebRTCPeer uid (Some b)) in
   fst res = Returned (Done (Some e)) /\
   closed (snd res) = false /\ pc (snd res) = Some p /\
   slot (snd res) = [] /\
   trace (snd res) =
     [EvNewPeerConnection;
      EvCreateDataChannel p ("snowflake-" ++ uid)%string] ++
     failed_rounds (LocalDescription p) (Second * ReconnectTimeout) k ++
     [EvNegotiate (LocalDescription p); EvSetRemoteDescription p ans;
      EvLog LogSetRemoteFailed]).
Proof.
  intros Hf Hk Hsrd Hr. split; [|split; [|split]].
  - intros ob setLocal e'. repeat split.
  - intros ob offer e'. repeat split.
  - intros c ch e' rest rounds. apply exchangeSDP_error_case.
  - replace r with (S (k + (r - S k))) by lia.
    set (c3 := snd (pc_OnIceComplete LocalDescription p
                      (snd (establishDataChannel (Ok d)
                         (snd (preparePeerConnection (Ok p)
                                 (NewWebRTCPeer uid (Some b)))))))).
    destruct (exchangeSDP_answered ReconnectTimeout LocalDescription
                SetRemoteDescription sync k ans (r - S k) pick c3 b p 0
                eq_refl (or_introl eq_refl) eq_refl eq_refl eq_refl Hf Hk)
      as (c' & E & Hcl & Hpc & Hrs & _ & Htr).
    rewrite Hsrd in E, Htr.
    assert (EC :
      Connect ReconnectTimeout LocalDescription SetRemoteDescription sync
        (Ok p) (Ok d) [OnIceComplete p] pick (S (k + (r - S k)))
        (NewWebRTCPeer uid (Some b)) =
      (r0 <- exchangeSDP ReconnectTimeout LocalDescription
               SetRemoteDescription sync pick (S (k + (r - S k))) ;;
       match r0 with
       | StillRetrying => ret StillRetrying
       | Done (Some e0) => ret (Done (Some e0))
       | Done None => modify (emit EvGoCheckForStaleness) ;; ret (Done None)
       end) c3) by reflexivity.
    rewrite EC. unfold bind. rewrite E. cbn -[Z.mul].
    unfold slot. rewrite Hcl, Hpc, Hrs, Htr. repeat split.
Qed.

End Negotiation.

(** C4, as stated, fails for the remote description: the broker answers at
    once, [SetRemoteDescription] refuses the answer; [Connect] returns the
    error and the session is not closed. *)
Lemma remote_description_failure_leaves_session_open :
  let b := {| replies := fun _ _ => (Some {| Sdp := "ANSWER" |}, None);
              calls := 0 |} in
  let ld := fun _ : PeerConnection => Some {| Sdp := "OFFER-1" |} in
  let srd := fun (_ : PeerConnection) (_ : SessionDescription) =>
               Some "invalid answer"%string in
  let res := Connect 10 ld srd 0 (Ok 1) (Ok 7) [OnIceComplete 1] true 1
               (NewWebRTCPeer "a" (Some b)) in
  fst res = Returned (Done (Some "invalid answer"%string)) /\
  closed (snd res) = false /\
  pc (snd res) = Some 1 /\
  pc_closes (trace (snd res)) = 0 /\
  slot (snd res) = [].
Proof. repeat split. Qed.

Lemma negotiation_errors_returned_witness :
  let b := {| replies := fun _ _ => (Some {| Sdp := "ANSWER" |}, None);
              calls := 0 |} in
  let ld := fun _ : PeerConnection => Some {| Sdp := "OFFER-1" |} in
  let srd := fun (_ : PeerConnection) (_ : SessionDescription) =>
               Some "invalid answer"%string in
  let failed := Connect 10 ld srd 0 (Ok 1) (Ok 7)
                  [OnNegotiationNeeded (Failed "no offer"%string) None] true 1
                  (NewWebRTCPeer "a" (Some b)) in
  let refused := Connect 10 ld srd 0 (Ok 1) (Ok 7) [OnIceComplete 1] true 1
                   (NewWebRTCPeer "a" (Some b)) in
  0 < 1 /\
  (fst failed = Returned (Done (Some "no offer"%string)) /\
   is_closed (snd failed)) /\
  (fst refused = Returned (Done (Some "invalid answer"%string)) /\
   closed (snd refused) = false).
Proof.
  intros b ld srd failed refused.
  assert (Hf : forall i, i < 0 ->
                         failing (replies b (calls b + i) (ld 1)) = true).
  { intros i Hi. lia. }
  destruct (negotiation_errors_returned 10 ld srd 0 "a" 1 7 0
              {| Sdp := "ANSWER" |} "invalid answer"%string b true 1
              Hf eq_refl eq_refl (le_n 1)) as (H1 & _ & _ & H4).
  split; [lia|]. split.
  - destruct (H1 (Some b) None "no offer"%string) as (Ha & Hb & _).
    split; [exact Ha|exact Hb].
  - destruct H4 as (Ha & Hb & _). split; [exact Ha|exact Hb].
Defined.

(** ** Failed delivery to the bridge *)

(** C5: the read end of the bridge was closed, so [writePipe.Write] of a
    one-byte message returns [(0, io.ErrClosedPipe)].  The handler closes
    the write end with that error and then, [0] not being the length of
    the message, panics on the short-write check: the process ends, the
    receive time is not updated. *)
Theorem failed_delivery_ends_in_short_write_panic (uid : string)
    (ob : option BrokerChannel) (now : Time) :
  let c := NewWebRTCPeer uid ob in
  let e := "io: read/write on closed pipe"%string in
  let res := dc_OnMessage now (0, Some e) [Byte.x61] c in
  fst res = Panicked "short write" /\
  trace (snd res) =
    [EvAddInbound 1; EvPipeWrite [Byte.x61]; EvLog LogPipeError;
     EvPipeCloseWithError e; EvLog LogShortWrite] /\
  lastReceive (snd res) = lastReceive c /\
  closed (snd res) = false.
Proof. repeat split. Qed.

(** ** The watchdog *)

Lemma dc_OnMessage_delivered now msg c w :
  writePipe c = Some w ->
  exists c',
    dc_OnMessage now (length msg, None) msg c = (Returned tt, c') /\
    lastReceive c' = now /\ closed c' = closed c /\
    writePipe c' = writePipe c /\ pc c' = pc c /\
    transport c' = transport c /\ reset c' = reset c /\
    pc_closes (trace c') = pc_closes (trace c).
Proof.
  intros H. unfold dc_OnMessage, bind, get, log, modify, ret.
  destruct (length msg <=? 0); simpl; rewrite H; simpl;
    rewrite Nat.eqb_refl; simpl; eexists; (split; [reflexivity|]); simpl;
    rewrite ?pc_closes_app; simpl; repeat split; try lia; exact H.
Qed.


Section Watchdog.

Variable SnowflakeTimeout : Z.
Variable sync : nat.

Lemma staleness_round_fresh now c :
  closed c = false ->
  (now - lastReceive c <= SnowflakeTimeout * Second)%Z ->
  staleness_round SnowflakeTimeout sync now c =
  (Returned WdRunning, emit (EvSleep Second) c).
Proof.
  intros Hc Hf. unfold staleness_round, bind, get. rewrite Hc.
  apply Z.ltb_ge in Hf. rewrite Hf. reflexivity.
Qed.



End Watchdog.


(** * Further properties *)

(** ** Errors of the set-up *)

Section SetUp.

Variable ReconnectTimeout : Z.
Variable LocalDescription : PeerConnection -> option SessionDescription.
Variable SetRemoteDescription :
  PeerConnection -> SessionDescription -> option Err.
Variable sync : nat.

(** X1: when the engine cannot make a connection, [Connect] returns the
    engine's error; the connection held before was closed and none is
    held now.  When the engine makes the connection but not the channel,
    [Connect] returns its own fixed error, not the engine's, and keeps the
    new connection.  In both cases the session is not closed, no reset is
    signalled, the broker is not asked and no watchdog is started. *)
Theorem Connect_setup_errors (cbs : list Callback) (pick : bool) (r : nat) :
  (forall c e newDC,
     let res := Connect ReconnectTimeout LocalDescription
                  SetRemoteDescription sync (Failed e) newDC cbs pick r c in
     fst res = Returned (Done (Some e)) /\
     pc (snd res) = None /\
     trace (snd res) = trace c ++ release_calls c ++ [EvNewPeerConnection] /\
     closed (snd res) = closed c /\ reset (snd res) = reset c) /\
  (forall c p e,
     transport c = None ->
     let res := Connect ReconnectTimeout LocalDescription
                  SetRemoteDescription sync (Ok p) (Failed e) cbs pick r c in
     fst res =
       Returned (Done (Some "WebRTC: Could not establish DataChannel."%string)) /\
     pc (snd res) = Some p /\
     trace (snd res) =
       trace c ++ release_calls c ++
       [EvNewPeerConnection; EvCreateDataChannel p (id c)] /\
     closed (snd res) = closed c /\ reset (snd res) = reset c).
Proof.
  split.
  - intros c e newDC.
    unfold Connect, preparePeerConnection, release_calls, bind, get, modify,
      ret.
    destruct (pc c) as [old|] eqn:E; simpl; rewrite <- ?app_assoc;
      repeat split; exact E.
  - intros c p e Ht.
    unfold Connect, preparePeerConnection, establishDataChannel,
      release_calls, bind, get, modify, ret.
    destruct (pc c) as [old|]; simpl; rewrite Ht; simpl;
      rewrite <- ?app_assoc; repeat split.
Qed.

End SetUp.

Lemma Connect_setup_errors_witness :
  let c := set_pc (Some 3) (NewWebRTCPeer "a" None) in
  let ld := fun _ : PeerConnection => @None SessionDescription in
  let srd := fun (_ : PeerConnection) (_ : SessionDescription) => @None Err in
  transport c = None /\
  fst (Connect 10 ld srd 0 (Ok 4) (Failed "no channel"%string) [] true 1 c) =
    Returned (Done (Some "WebRTC: Could not establish DataChannel."%string)) /\
  trace (snd (Connect 10 ld srd 0 (Ok 4) (Failed "no channel"%string) [] true
                1 c)) =
    [EvPeerConnectionClose 3; EvNewPeerConnection;
     EvCreateDataChannel 4 "snowflake-a"].
Proof.
  intros c ld srd. split; [reflexivity|].
  destruct (Connect_setup_errors 10 ld srd 0 [] true 1) as (_ & H).
  destruct (H c 4 "no channel"%string eq_refl) as (H1 & _ & H3 & _).
  split; [exact H1|exact H3].
Defined.

(** ** What Close does to an open session *)

Lemma cleanup_result sync c :
  closable (offerChannel c) = true ->
  closable (answerChannel c) = true ->
  closable (errorChannel c) = true ->
  cleanup (dataChannel_Close sync) c = (Returned tt, cleaned sync c).
Proof.
  destruct c as [i p t br oc ac ec wp lr buf rs cl tr].
  unfold closable. simpl. intros H1 H2 H3.
  destruct oc as [[b1 k1 [|] q1]|]; try discriminate;
  destruct ac as [[b2 k2 [|] q2]|]; try discriminate;
  destruct ec as [[b3 k3 [|] q3]|]; try discriminate;
  destruct wp as [w|]; destruct t as [d|]; destruct p as [p|];
  destruct sync as [|k];
  cbv -[app]; rewrite <- ?app_assoc; rewrite ?app_nil_r; reflexivity.
Qed.

Lemma Close_open_session sync c :
  closed c = false ->
  closable (offerChannel c) = true ->
  closable (answerChannel c) = true ->
  closable (errorChannel c) = true ->
  Close (dataChannel_Close sync) c =
  (Reset ;; ret None) (cleaned sync (set_closed true c)).
Proof.
  intros Hc H1 H2 H3. rewrite Close_when_open by exact Hc.
  unfold bind at 1.
  rewrite (cleanup_result sync (set_closed true c) H1 H2 H3). reflexivity.
Qed.

Lemma Reset_free c n :
  reset c = Some (MkChan [] (S n) false 0 []) ->
  Reset c = (Returned tt, set_reset (Some (MkChan [tt] (S n) false 0 [])) c).
Proof.
  intros H. unfold Reset. unfold bind, get, send_on, chan_send.
  rewrite H. reflexivity.
Qed.

Lemma Reset_full c :
  reset c = Some (MkChan [tt] 1 false 0 []) ->
  Reset c = (Blocked, set_reset (Some (MkChan [tt] 1 false 0 [tt])) c).
Proof.
  intros H. unfold Reset. unfold bind, get, send_on, chan_send.
  rewrite H. reflexivity.
Qed.

Lemma Close_open_free sync c n :
  closed c = false ->
  closable (offerChannel c) = true ->
  closable (answerChannel c) = true ->
  closable (errorChannel c) = true ->
  reset c = Some (MkChan [] (S n) false 0 []) ->
  Close (dataChannel_Close sync) c =
  (Returned None,
   set_reset (Some (MkChan [tt] (S n) false 0 []))
     (cleaned sync (set_closed true c))).
Proof.
  intros Hc H1 H2 H3 Hr.
  rewrite (Close_open_session sync c Hc H1 H2 H3).
  unfold bind at 1.
  rewrite (Reset_free (cleaned sync (set_closed true c)) n Hr). reflexivity.
Qed.

(** X2: [Close] on an open session whose reset slot is free returns nil
    having set the flag, closed the three signal channels, closed and
    dropped the write end of the bridge, dropped the channel reference and
    asked the engine to close the channel, closed and dropped the engine
    connection, in this order, and having queued one reset signal last.
    The outbound buffer, the receive time and the broker are untouched. *)
Theorem Close_tears_down_then_signals (sync : nat) (c : WebRTCPeer)
    (n : nat) :
  closed c = false ->
  closable (offerChannel c) = true ->
  closable (answerChannel c) = true ->
  closable (errorChannel c) = true ->
  reset c = Some (MkChan [] (S n) false 0 []) ->
  Close (dataChannel_Close sync) c =
  (Returned None,
   set_reset (Some (MkChan [tt] (S n) false 0 []))
     (cleaned sync (set_closed true c))).
Proof.
  apply Close_open_free.
Qed.

Lemma Close_tears_down_then_signals_witness :
  let c := set_transport (Some 5) (set_pc (Some 3) (NewWebRTCPeer "a" None)) in
  let c' := snd (Close (dataChannel_Close 0) c) in
  closed c = false /\
  fst (Close (dataChannel_Close 0) c) = Returned None /\
  trace c' = [EvPipeClose; EvDataChannelClose 5; EvPeerConnectionClose 3] /\
  slot c' = [tt] /\ writePipe c' = None /\ transport c' = None /\
  pc c' = None /\ closed c' = true.
Proof.
  intros c c'. split; [reflexivity|]. unfold c'.
  rewrite (Close_tears_down_then_signals 0 c 0 eq_refl eq_refl eq_refl
             eq_refl eq_refl).
  repeat split.
Defined.

(** X3: with a reset signal still in the slot and nobody receiving,
    [Close] on an open session does all of the teardown and then parks in
    its final [Reset]: it does not return, the session is closed, the
    slot still holds the one signal, and the signal of [Close] waits
    behind it. *)
Theorem Close_parks_behind_pending_reset (sync : nat) (c : WebRTCPeer) :
  closed c = false ->
  closable (offerChannel c) = true ->
  closable (answerChannel c) = true ->
  closable (errorChannel c) = true ->
  reset c = Some (MkChan [tt] 1 false 0 []) ->
  Close (dataChannel_Close sync) c =
  (Blocked,
   set_reset (Some (MkChan [tt] 1 false 0 [tt]))
     (cleaned sync (set_closed true c))).
Proof.
  intros Hc H1 H2 H3 Hr.
  rewrite (Close_open_session sync c Hc H1 H2 H3).
  unfold bind at 1.
  rewrite (Reset_full (cleaned sync (set_closed true c)) Hr). reflexivity.
Qed.

Lemma Close_parks_behind_pending_reset_witness :
  let c := snd (Reset (set_pc (Some 3) (NewWebRTCPeer "a" None))) in
  let res := Close (dataChannel_Close 0) c in
  closed c = false /\
  fst res = Blocked /\
  closed (snd res) = true /\ pc (snd res) = None /\
  trace (snd res) = [EvPipeClose; EvPeerConnectionClose 3] /\
  slot (snd res) = [tt].
Proof.
  intros c res. split; [reflexivity|]. unfold res.
  rewrite (Close_parks_behind_pending_reset 0 c eq_refl eq_refl eq_refl
             eq_refl eq_refl).
  repeat split.
Defined.

(** X4: when the remote side closes the channel (the closed callback
    finds the channel reference set) on an open session with a free reset
    slot, the session is torn down and the reset is signalled as by
    [Close], but the engine is never asked to close the channel: the
    reference was cleared before [cleanup] ran. *)
Theorem remote_close_tears_down_without_channel_close (sync : nat)
    (c : WebRTCPeer) (t : DataChannel) (n : nat) :
  transport c = Some t ->
  closed c = false ->
  closable (offerChannel c) = true ->
  closable (answerChannel c) = true ->
  closable (errorChannel c) = true ->
  reset c = Some (MkChan [] (S n) false 0 []) ->
  exists c',
    dc_OnClose (dataChannel_Close sync) c = (Returned tt, c') /\
    closed c' = true /\ transport c' = None /\ pc c' = None /\
    writePipe c' = None /\ slot c' = [tt] /\ buffer c' = buffer c /\
    trace c' =
      trace c ++
      EvLog LogOnCloseRemotely ::
      match writePipe c with
      | Some _ => [EvPipeClose]
      | None => []
      end ++ release_calls c.
Proof.
  intros Ht Hc H1 H2 H3 Hr.
  set (c0 := set_transport None (emit (EvLog LogOnCloseRemotely) c)).
  assert (E : dc_OnClose (dataChannel_Close sync) c =
              (Close (dataChannel_Close sync) ;; ret tt) c0).
  { unfold dc_OnClose, bind, get, log, modify. rewrite Ht. reflexivity. }
  rewrite E. unfold bind.
  rewrite (Close_open_free sync c0 n Hc H1 H2 H3 Hr).
  eexists. split; [reflexivity|].
  unfold release_calls. simpl. unfold cleanup_calls. simpl.
  rewrite <- app_assoc. simpl. repeat split.
Qed.

Lemma remote_close_tears_down_without_channel_close_witness :
  let c := set_transport (Some 5) (set_pc (Some 3) (NewWebRTCPeer "a" None)) in
  let res := dc_OnClose (dataChannel_Close 1) c in
  transport c = Some 5 /\
  fst res = Returned tt /\
  trace (snd res) =
    [EvLog LogOnCloseRemotely; EvPipeClose; EvPeerConnectionClose 3] /\
  slot (snd res) = [tt].
Proof.
  intros c res. split; [reflexivity|].
  destruct (remote_close_tears_down_without_channel_close 1 c 5 0
              eq_refl eq_refl eq_refl eq_refl eq_refl eq_refl)
    as (c' & E & _ & _ & _ & _ & Hs & _ & Ht).
  unfold res. rewrite E. split; [reflexivity|]. split; [exact Ht|exact Hs].
Defined.

(** ** The reset signal, sent and received *)

(** X5: with the reset slot empty and nobody waiting, a [Reset] followed
    by a [WaitForReset] both return and leave the peer as it was; and a
    [WaitForReset] made first parks, to be released by the next [Reset],
    which again leaves the peer as it was before the two. *)
Theorem reset_signal_round_trip (c : WebRTCPeer) (n : nat) :
  reset c = Some (MkChan [] (S n) false 0 []) ->
  (Reset ;; WaitForReset) c = (Returned tt, c) /\
  WaitForReset c = (Blocked, set_reset (Some (MkChan [] (S n) false 1 [])) c) /\
  Reset (set_reset (Some (MkChan [] (S n) false 1 [])) c) = (Returned tt, c).
Proof.
  intros H. destruct c as [i p t br oc ac ec wp lr buf rs cl tr].
  simpl in H. subst rs. repeat split.
Qed.

Lemma reset_signal_round_trip_witness :
  let c := NewWebRTCPeer "a" None in
  reset c = Some (MkChan [] 1 false 0 []) /\
  (Reset ;; WaitForReset) c = (Returned tt, c) /\
  fst (WaitForReset c) = Blocked /\
  Reset (snd (WaitForReset c)) = (Returned tt, c).
Proof.
  intros c. split; [reflexivity|].
  destruct (reset_signal_round_trip c 0 eq_refl) as (H1 & H2 & H3).
  split; [exact H1|]. rewrite H2. split; [reflexivity|exact H3].
Defined.

(** ** Inbound messages of no length *)

(** X7: a message of length zero is not rejected: it is logged, handed to
    the bridge, and counts as traffic (the receive time is updated), the
    short-write check passing with [n = 0].  This is so even when the
    write to the bridge fails; the write end is then closed with the
    error and the handler still returns. *)
Theorem empty_message_counts_as_traffic (now : Time) (err : option Err)
    (c : WebRTCPeer) (w : PipeWriter) :
  writePipe c = Some w ->
  exists c',
    dc_OnMessage now (0, err) [] c = (Returned tt, c') /\
    lastReceive c' = now /\ closed c' = closed c /\
    buffer c' = buffer c /\ transport c' = transport c /\
    trace c' =
      trace c ++
      [EvLog LogZeroLength; EvAddInbound 0; EvPipeWrite []] ++
      match err with
      | Some e => [EvLog LogPipeError; EvPipeCloseWithError e]
      | None => []
      end.
Proof.
  intros H. unfold dc_OnMessage, bind, get, log, modify, ret. simpl.
  rewrite H. destruct err as [e|]; simpl;
    (eexists; split; [reflexivity|]); simpl; rewrite <- ?app_assoc;
    repeat split.
Qed.

Lemma empty_message_counts_as_traffic_witness :
  let c := NewWebRTCPeer "a" None in
  let res := dc_OnMessage 42%Z
               (0, Some "io: read/write on closed pipe"%string) [] c in
  writePipe c = Some ThePipeWriter /\
  fst res = Returned tt /\ lastReceive (snd res) = 42%Z.
Proof.
  intros c res. split; [reflexivity|].
  destruct (empty_message_counts_as_traffic 42%Z
              (Some "io: read/write on closed pipe"%string) c ThePipeWriter
              eq_refl) as (c' & E & Hl & _).
  assert (E' : res = (Returned tt, c')) by exact E.
  rewrite E'. split; [reflexivity|exact Hl].
Defined.

(** ** A session that has gone silent *)

Section Silence.

Variable SnowflakeTimeout : Z.
Variable sync : nat.

Lemma with_trace_same c : with_trace (trace c) c = c.
Proof. destruct c; reflexivity. Qed.

Lemma staleness_round_stale now c :
  closed c = false ->
  (SnowflakeTimeout * Second < now - lastReceive c)%Z ->
  staleness_round SnowflakeTimeout sync now c =
  (Close (dataChannel_Close sync) ;; ret WdReturned)
    (emit (EvLog LogStale) c).
Proof.
  intros Hc Hs. unfold staleness_round. unfold bind at 1. unfold get.
  rewrite Hc. apply Z.ltb_lt in Hs. rewrite Hs. reflexivity.
Qed.

(** Polls that find the session fresh: each sleeps a second. *)
Lemma watch_fresh_polls polls rest :
  forall c,
    closed c = false ->
    (forall x, In x polls ->
               (x - lastReceive c <= SnowflakeTimeout * Second)%Z) ->
    watch SnowflakeTimeout sync (map Poll polls ++ rest) c =
    watch SnowflakeTimeout sync rest
      (with_trace (trace c ++ repeat (EvSleep Second) (length polls)) c).
Proof.
  induction polls as [|x polls IH]; intros c Hc Hf.
  - simpl. rewrite app_nil_r, with_trace_same. reflexivity.
  - cbn [map app watch].
    erewrite bind_returned;
      [|apply staleness_round_fresh; [exact Hc|apply Hf; left; reflexivity]].
    cbv beta iota.
    rewrite (IH (emit (EvSleep Second) c) Hc).
    + f_equal. unfold with_trace, emit. cbn -[Second].
      rewrite <- app_assoc. reflexivity.
    + intros y Hy. apply Hf. right. exact Hy.
Qed.

(** X6: a watchdog started at [start] on an open session that receives
    nothing sleeps one second after every poll made within the timeout;
    at the first poll made later than that it logs, calls [Close] and
    returns, whatever would have come after: the session is closed. *)
Theorem silent_session_is_closed_by_watchdog (start : Time)
    (polls : list Time) (t : Time) (rest : list Tick) (c : WebRTCPeer) :
  closed c = false ->
  (forall x, In x polls -> (x - start <= SnowflakeTimeout * Second)%Z) ->
  (SnowflakeTimeout * Second < t - start)%Z ->
  let res := checkForStaleness SnowflakeTimeout sync start
               (map Poll polls ++ Poll t :: rest) c in
  res =
    (Close (dataChannel_Close sync) ;; ret WdReturned)
      (with_trace
         (trace c ++ repeat (EvSleep Second) (length polls) ++
          [EvLog LogStale])
         (set_lastReceive start c)) /\
  is_closed (snd res) /\
  fst res <> Returned WdRunning.
Proof.
  intros Hc Hf Hs res.
  assert (E : res =
              (Close (dataChannel_Close sync) ;; ret WdReturned)
                (with_trace
                   (trace c ++ repeat (EvSleep Second) (length polls) ++
                    [EvLog LogStale])
                   (set_lastReceive start c))).
  { unfold res, checkForStaleness.
    erewrite bind_returned; [|reflexivity].
    rewrite (watch_fresh_polls polls (Poll t :: rest)
               (set_lastReceive start c) Hc Hf).
    cbn [watch]. unfold bind at 1.
    rewrite staleness_round_stale; [|exact Hc|exact Hs].
    unfold with_trace, emit. cbn -[Second Close]. rewrite <- app_assoc.
    unfold bind.
    destruct (Close (dataChannel_Close sync) _) as [[a| |m] c'];
      reflexivity. }
  split; [exact E|]. rewrite E. unfold bind.
  match goal with
  | |- context [Close ?h ?s] =>
      pose proof (Close_closes sync s) as Hcl;
      destruct (Close h s) as [[a| |m] c']
  end; simpl in *; split; auto; discriminate.
Qed.

End Silence.

Lemma silent_session_is_closed_by_watchdog_witness :
  let c := set_pc (Some 1) (NewWebRTCPeer "a" None) in
  let s := Second in
  let res := checkForStaleness 30 0 0%Z
               (map Poll [1 * s; 2 * s; 30 * s] ++
                Poll (31 * s) :: [Poll (32 * s)])%Z c in
  closed c = false /\
  fst res = Returned WdReturned /\
  trace (snd res) =
    [EvSleep s; EvSleep s; EvSleep s; EvLog LogStale; EvPipeClose;
     EvPeerConnectionClose 1].
Proof.
  intros c s res. split; [reflexivity|].
  assert (Hf : forall x, In x [1 * s; 2 * s; 30 * s]%Z ->
                         (x - 0 <= 30 * Second)%Z).
  { intros x [H | [H | [H | []]]]; subst x; vm_compute; discriminate. }
  destruct (silent_session_is_closed_by_watchdog 30 0 0%Z
              [1 * s; 2 * s; 30 * s]%Z (31 * s)%Z [Poll (32 * s)%Z] c
              eq_refl Hf eq_refl) as (E & _).
  assert (E' : res = _) by exact E.
  rewrite E'. split; reflexivity.
Defined.

(** ** The outbound buffer across Close *)

Lemma Reset_fields c :
  let c' := snd (Reset c) in
  id c' = id c /\ pc c' = pc c /\ transport c' = transport c /\
  broker c' = broker c /\ offerChannel c' = offerChannel c /\
  answerChannel c' = answerChannel c /\ errorChannel c' = errorChannel c /\
  writePipe c' = writePipe c /\ lastReceive c' = lastReceive c /\
  buffer c' = buffer c /\ closed c' = closed c /\ trace c' = trace c.
Proof.
  unfold Reset, bind, get, send_on. destruct (reset c) as [ch|]; simpl.
  - destruct (chan_send ch tt) as [[a| |msg] ch']; simpl; repeat split.
  - repeat split.
Qed.

Ltac buffer_leaf :=
  intros; cbn in *; rewrite ?sends_app; cbn; rewrite ?app_nil_r; assumption.

Lemma buffer_kept_Reset b l :
  keeps (fun c => buffer c = b /\ sends (trace c) = l) Reset.
Proof. unfold Reset. keeps_with buffer_leaf. Qed.

Lemma buffer_kept_cleanup hook b l :
  (forall dc, keeps (fun c => buffer c = b /\ sends (trace c) = l) (hook dc)) ->
  keeps (fun c => buffer c = b /\ sends (trace c) = l) (cleanup hook).
Proof. intros Hh. unfold cleanup. keeps_with buffer_leaf. apply Hh. Qed.

Lemma buffer_kept_Close hook b l :
  (forall dc, keeps (fun c => buffer c = b /\ sends (trace c) = l) (hook dc)) ->
  keeps (fun c => buffer c = b /\ sends (trace c) = l) (Close hook).
Proof.
  intros Hh. unfold Close.
  pose proof (buffer_kept_cleanup hook b l Hh).
  pose proof (buffer_kept_Reset b l).
  keeps_with buffer_leaf.
Qed.

Lemma buffer_kept_dataChannel_Close sync b l dc :
  keeps (fun c => buffer c = b /\ sends (trace c) = l)
    (dataChannel_Close sync dc).
Proof.
  revert dc. induction sync as [|k IH]; intro dc; simpl.
  - keeps_with buffer_leaf.
  - pose proof (buffer_kept_Close _ b l IH). unfold dc_OnClose, log.
    keeps_with buffer_leaf.
Qed.

(** X9: [Close] sends nothing and leaves the outbound buffer as it is,
    however it ends.  So the bytes written before a channel opened are
    still buffered after a [Close] of the open session, and the next
    channel that opens gets them in its first [Send]. *)
Theorem buffered_bytes_survive_Close (sync : nat) :
  (forall c,
     buffer (snd (Close (dataChannel_Close sync) c)) = buffer c /\
     sends (trace (snd (Close (dataChannel_Close sync) c))) =
       sends (trace c)) /\
  (forall c dc,
     closed c = false ->
     closable (offerChannel c) = true ->
     closable (answerChannel c) = true ->
     closable (errorChannel c) = true ->
     exists c',
       dc_OnOpen dc (snd (Close (dataChannel_Close sync) c)) =
         (Returned tt, c') /\
       transport c' = Some dc /\ buffer c' = [] /\
       sends (trace c') =
         sends (trace c) ++
         match buffer c with
         | [] => []
         | _ :: _ => [(dc, buffer c)]
         end).
Proof.
  assert (K : forall c,
             buffer (snd (Close (dataChannel_Close sync) c)) = buffer c /\
             sends (trace (snd (Close (dataChannel_Close sync) c))) =
               sends (trace c)).
  { intros c.
    apply (buffer_kept_Close _ (buffer c) (sends (trace c))
             (buffer_kept_dataChannel_Close sync _ _) c).
    split; reflexivity. }
  split; [exact K|].
  intros c dc Hc H1 H2 H3.
  destruct (K c) as (Hb & Hs).
  assert (Ht : transport (snd (Close (dataChannel_Close sync) c)) = None).
  { rewrite (Close_open_session sync c Hc H1 H2 H3). unfold bind.
    pose proof (Reset_fields (cleaned sync (set_closed true c))) as F.
    destruct (Reset (cleaned sync (set_closed true c))) as [[a| |m] c1];
      simpl in *; destruct F as (_ & _ & F & _); exact F. }
  destruct (dc_OnOpen_flushes dc _ Ht) as (c' & E & Hb' & Ht' & Hs').
  exists c'. rewrite E, Hs', Hs, Hb. auto.
Qed.

Lemma buffered_bytes_survive_Close_witness :
  let c := snd (Write [Byte.x68; Byte.x69] (NewWebRTCPeer "a" None)) in
  let c' := snd (Close (dataChannel_Close 0) c) in
  closed c = false /\
  buffer c' = [Byte.x68; Byte.x69] /\
  sends (trace (snd (dc_OnOpen 7 c'))) = [(7, [Byte.x68; Byte.x69])].
Proof.
  intros c c'. split; [reflexivity|].
  destruct (buffered_bytes_survive_Close 0) as (H1 & H2).
  split.
  - apply (H1 c).
  - destruct (H2 c 7 eq_refl eq_refl eq_refl eq_refl) as (c2 & E & _ & _ & Hs).
    unfold c'. rewrite E. exact Hs.
Defined.

(** ** The exchange without a broker *)

Section Manual.

Variable ReconnectTimeout : Z.
Variable LocalDescription : PeerConnection -> option SessionDescription.
Variable SetRemoteDescription :
  PeerConnection -> SessionDescription -> option Err.
Variable sync : nat.

Lemma sendOfferToBroker_no_broker c :
  broker c = None -> sendOfferToBroker LocalDescription c = (Returned tt, c).
Proof.
  intros H. unfold sendOfferToBroker, bind, get. rewrite H. reflexivity.
Qed.

Lemma retry_pasted_answer r c ans rest cap q :
  broker c = None ->
  answerChannel c = Some (MkChan (Some ans :: rest) cap false q []) ->
  retry ReconnectTimeout LocalDescription (S r) c =
  (Returned (Some ans), set_answerChannel (Some (MkChan rest cap false q [])) c).
Proof.
  intros Hb Ha. cbn [retry].
  erewrite bind_returned;
    [|unfold go; rewrite (sendOfferToBroker_no_broker c Hb); reflexivity].
  erewrite bind_returned;
    [|unfold recv_answer, chan_recv; rewrite Ha; reflexivity].
  reflexivity.
Qed.

(** X10: without a broker, a round of the retry loop asks nobody.  It
    takes the answer that was put into the answer channel from outside,
    and [exchangeSDP], having taken the local offer, applies it as the
    remote description; with nothing in the channel yet the loop parks in
    its receive, one receiver more waiting on the channel. *)
Theorem manual_exchange_waits_for_pasted_answer (r : nat) (c : WebRTCPeer)
    (p : PeerConnection) (cap q : nat) :
  broker c = None ->
  pc c = Some p ->
  (answerChannel c = Some (MkChan [] cap false q []) ->
   retry ReconnectTimeout LocalDescription (S r) c =
   (Blocked, set_answerChannel (Some (MkChan [] cap false (S q) [])) c)) /\
  (forall ans rest pick offer offers cap' q',
     answerChannel c = Some (MkChan (Some ans :: rest) cap false q []) ->
     offerChannel c =
       Some (MkChan (Some offer :: offers) cap' false q' []) ->
     ready (errorChannel c) = false \/ pick = true ->
     exists c',
       exchangeSDP ReconnectTimeout LocalDescription SetRemoteDescription
         sync pick (S r) c =
       (Returned (Done (SetRemoteDescription p ans)), c') /\
       answerChannel c' = Some (MkChan rest cap false q []) /\
       closed c' = closed c /\
       trace c' =
         trace c ++
         EvSetRemoteDescription p ans ::
         match SetRemoteDescription p ans with
         | Some _ => [EvLog LogSetRemoteFailed]
         | None => []
         end).
Proof.
  intros Hb Hp. split.
  - intros Ha. cbn [retry].
    erewrite bind_returned;
      [|unfold go; rewrite (sendOfferToBroker_no_broker c Hb); reflexivity].
    unfold bind, recv_answer, chan_recv. rewrite Ha. reflexivity.
  - intros ans rest pick offer offers cap' q' Ha Hoc He.
    assert (Ho : ready (offerChannel c) = true)
      by (rewrite Hoc; reflexivity).
    destruct (recv_offer_ready c Ho) as (v & ch & Hr).
    unfold exchangeSDP. unfold bind at 1. unfold get. rewrite Ho.
    assert (Hsel : (true && (negb (ready (errorChannel c)) || pick))%bool
                   = true).
    { destruct He as [He | He]; rewrite He; simpl; auto using orb_true_r. }
    rewrite Hsel. unfold bind at 1. rewrite Hr.
    unfold bind at 1.
    rewrite (retry_pasted_answer r (set_offerChannel (Some ch) c) ans rest
               cap q Hb Ha).
    unfold bind at 1. unfold get.
    cbn [pc set_answerChannel set_offerChannel]. rewrite Hp.
    unfold bind at 1. unfold modify at 1.
    destruct (SetRemoteDescription p ans) as [e|];
      unfold log, bind, modify, ret; simpl;
      (eexists; split; [reflexivity|]); simpl; rewrite <- ?app_assoc;
      repeat split.
Qed.

End Manual.

Lemma manual_exchange_waits_for_pasted_answer_witness :
  let ld := fun _ : PeerConnection => Some {| Sdp := "OFFER-1" |} in
  let srd := fun (_ : PeerConnection) (_ : SessionDescription) => @None Err in
  let c := snd (pc_OnIceComplete ld 1
                  (set_pc (Some 1) (NewWebRTCPeer "a" None))) in
  let pasted :=
    set_answerChannel
      (Some (MkChan [Some {| Sdp := "ANSWER" |}] 1 false 0 [])) c in
  broker c = None /\
  fst (retry 10 ld 1 c) = Blocked /\
  fst (exchangeSDP 10 ld srd 0 true 1 pasted) = Returned (Done None) /\
  trace (snd (exchangeSDP 10 ld srd 0 true 1 pasted)) =
    [EvSetRemoteDescription 1 {| Sdp := "ANSWER" |}].
Proof.
  intros ld srd c pasted. split; [reflexivity|].
  split.
  - destruct (manual_exchange_waits_for_pasted_answer 10 ld srd 0 0 c 1 1 0
                eq_refl eq_refl) as (H & _).
    rewrite (H eq_refl). reflexivity.
  - destruct (manual_exchange_waits_for_pasted_answer 10 ld srd 0 0 pasted
                1 1 0 eq_refl eq_refl) as (_ & H).
    destruct (H {| Sdp := "ANSWER" |} [] true {| Sdp := "OFFER-1" |} [] 1 0
                eq_refl eq_refl (or_intror eq_refl))
      as (c' & E & _ & _ & Ht).
    rewrite E. split; [reflexivity|exact Ht].
Defined.

(** ** After Close *)

Lemma Close_open_fields sync c :
  closed c = false ->
  closable (offerChannel c) = true ->
  closable (answerChannel c) = true ->
  closable (errorChannel c) = true ->
  let c' := snd (Close (dataChannel_Close sync) c) in
  closed c' = true /\ pc c' = None /\ transport c' = None /\
  writePipe c' = None /\
  offerChannel c' = option_map shut (offerChannel c) /\
  answerChannel c' = option_map shut (answerChannel c) /\
  errorChannel c' = option_map shut (errorChannel c) /\
  buffer c' = buffer c /\ broker c' = broker c /\
  trace c' = trace c ++ cleanup_calls sync c.
Proof.
  intros Hc H1 H2 H3 c'. unfold c'.
  rewrite (Close_open_session sync c Hc H1 H2 H3). unfold bind.
  pose proof (Reset_fields (cleaned sync (set_closed true c))) as F.
  destruct (Reset (cleaned sync (set_closed true c))) as [[a| |m] c1];
    simpl in *;
    destruct F as (_ & F1 & F2 & F3 & F4 & F5 & F6 & F7 & _ & F8 & F9 & F10);
    rewrite F1, F2, F3, F4, F5, F6, F7, F8, F9, F10; repeat split.
Qed.

(** X8: once [Close] has run on an open session, the callbacks of the
    engine that may still arrive do not find what they need: an inbound
    message panics on the bridge's write end, which is nil; the end of
    the candidate gathering and a failed offer panic on a send to a closed
    channel.  A late open event, for which the flag [closed] is not
    consulted, still installs the channel, and a further [Close] does not
    close it. *)
Theorem callbacks_after_Close (sync : nat) (c : WebRTCPeer)
    (oc : Chan (option SessionDescription)) (ec : Chan (option Err)) :
  closed c = false ->
  offerChannel c = Some oc -> ch_closed oc = false ->
  errorChannel c = Some ec -> ch_closed ec = false ->
  closable (answerChannel c) = true ->
  let c' := snd (Close (dataChannel_Close sync) c) in
  (forall now wr msg,
     exists m, fst (dc_OnMessage now wr msg c') = Panicked m) /\
  (forall ld p,
     pc_OnIceComplete ld p c' = (Panicked "send on closed channel", c')) /\
  (forall e setLocal,
     pc_OnNegotiationNeeded (Failed e) setLocal c' =
     (Panicked "send on closed channel", c')) /\
  (forall offer e,
     pc_OnNegotiationNeeded (Ok offer) (Some e) c' =
     (Panicked "send on closed channel", c')) /\
  (forall dc,
     fst (dc_OnOpen dc c') = Returned tt /\
     transport (snd (dc_OnOpen dc c')) = Some dc /\
     Close (dataChannel_Close sync) (snd (dc_OnOpen dc c')) =
       (Returned None, snd (dc_OnOpen dc c'))).
Proof.
  intros Hc Ho Hoc He Hec Ha c'.
  assert (H1 : closable (offerChannel c) = true).
  { rewrite Ho. simpl. rewrite Hoc. reflexivity. }
  assert (H3 : closable (errorChannel c) = true).
  { rewrite He. simpl. rewrite Hec. reflexivity. }
  destruct (Close_open_fields sync c Hc H1 Ha H3)
    as (Fc & _ & Ft & Fw & Fo & _ & Fe & _).
  fold c' in Fc, Ft, Fw, Fo, Fe. rewrite Ho in Fo. rewrite He in Fe.
  simpl in Fo, Fe.
  split; [|split; [|split; [|split]]].
  - intros now wr msg. unfold dc_OnMessage, bind, get, log, modify, panic.
    destruct (length msg <=? 0); simpl; rewrite Fw; eexists; reflexivity.
  - intros ld p. unfold pc_OnIceComplete, bind, get, lift. rewrite Fo.
    reflexivity.
  - intros e setLocal. unfold pc_OnNegotiationNeeded, send_error, bind, get,
      lift. rewrite Fe. reflexivity.
  - intros offer e. unfold pc_OnNegotiationNeeded, send_error, bind, get,
      lift. rewrite Fe. reflexivity.
  - intros dc.
    destruct (dc_OnOpen_flushes dc c' Ft) as (c2 & E & _ & Ht2 & _).
    rewrite E. simpl. split; [reflexivity|]. split; [exact Ht2|].
    apply Close_when_closed.
    pose proof (kept_dc_OnOpen is_closed is_closed_framed dc c' Fc) as K.
    rewrite E in K. exact K.
Qed.

Lemma callbacks_after_Close_witness :
  let c := NewWebRTCPeer "a" None in
  let c' := snd (Close (dataChannel_Close 0) c) in
  closed c = false /\
  (exists m,
     fst (dc_OnMessage 0%Z (1, None) [Byte.x61] c') = Panicked m) /\
  fst (pc_OnIceComplete (fun _ => None) 1 c') =
    Panicked "send on closed channel" /\
  transport (snd (dc_OnOpen 7 c')) = Some 7.
Proof.
  intros c c'. split; [reflexivity|].
  destruct (callbacks_after_Close 0 c (make_chan _ 1) (make_chan _ 1)
              eq_refl eq_refl eq_refl eq_refl eq_refl eq_refl)
    as (H1 & H2 & _ & _ & H5).
  split; [apply H1|]. split.
  - unfold c'. rewrite (H2 (fun _ => None) 1). reflexivity.
  - apply (H5 7).
Defined.

(** ** Connecting a session that was closed *)

Section Reconnect.

Variable ReconnectTimeout : Z.
Variable LocalDescription : PeerConnection -> option SessionDescription.
Variable SetRemoteDescription :
  PeerConnection -> SessionDescription -> option Err.
Variable sync : nat.

Lemma bind_panicked A B (m : M A) (k : A -> M B) c msg c' :
  m c = (Panicked msg, c') -> bind m k c = (Panicked msg, c').
Proof. intros H. unfold bind. rewrite H. reflexivity. Qed.

Lemma Connect_prepared cbs pick r c p d :
  transport c = None ->
  Connect ReconnectTimeout LocalDescription SetRemoteDescription sync
    (Ok p) (Ok d) cbs pick r c =
  (callbacks LocalDescription sync cbs ;;
   r0 <- exchangeSDP ReconnectTimeout LocalDescription SetRemoteDescription
           sync pick r ;;
   match r0 with
   | StillRetrying => ret StillRetrying
   | Done (Some e) => ret (Done (Some e))
   | Done None => modify (emit EvGoCheckForStaleness) ;; ret (Done None)
   end) (prepared p c).
Proof.
  intros Ht. unfold Connect.
  assert (E1 : preparePeerConnection (Ok p) c =
               (Returned None,
                set_pc (Some p)
                  (with_trace (trace c ++ release_calls c ++
                               [EvNewPeerConnection]) c))).
  { unfold preparePeerConnection, release_calls, bind, get, modify, ret.
    destruct c as [i pc0 t br oc ac ec wp lr buf rs cl tr].
    destruct pc0; unfold set_pc, with_trace, emit; simpl;
      rewrite <- ?app_assoc; reflexivity. }
  unfold bind at 1. rewrite E1.
  assert (E2 : establishDataChannel (Ok d)
                 (set_pc (Some p)
                    (with_trace (trace c ++ release_calls c ++
                                 [EvNewPeerConnection]) c)) =
               (Returned None, prepared p c)).
  { unfold establishDataChannel, bind, get, modify, ret, panic. simpl.
    rewrite Ht. unfold prepared, emit. simpl.
    rewrite <- !app_assoc. reflexivity. }
  unfold bind at 1. rewrite E2. reflexivity.
Qed.

Lemma Connect_prepared_quiet pick r c p d :
  transport c = None ->
  Connect ReconnectTimeout LocalDescription SetRemoteDescription sync
    (Ok p) (Ok d) [] pick r c =
  (r0 <- exchangeSDP ReconnectTimeout LocalDescription SetRemoteDescription
           sync pick r ;;
   match r0 with
   | StillRetrying => ret StillRetrying
   | Done (Some e) => ret (Done (Some e))
   | Done None => modify (emit EvGoCheckForStaleness) ;; ret (Done None)
   end) (prepared p c).
Proof.
  intros Ht. rewrite (Connect_prepared [] pick r c p d Ht). reflexivity.
Qed.

Lemma exchangeSDP_takes_offer pick r c :
  ready (offerChannel c) = true ->
  ready (errorChannel c) = false \/ pick = true ->
  exchangeSDP ReconnectTimeout LocalDescription SetRemoteDescription sync
    pick r c =
  (_ <- recv_offer ;;
   answer <- retry ReconnectTimeout LocalDescription r ;;
   match answer with
   | None => ret StillRetrying
   | Some a =>
       c <- get ;;
       match pc c with
       | None => panic "nil pointer dereference"
       | Some p =>
           modify (emit (EvSetRemoteDescription p a)) ;;
           match SetRemoteDescription p a with
           | Some e => log LogSetRemoteFailed ;; ret (Done (Some e))
           | None => ret (Done None)
           end
       end
   end) c.
Proof.
  intros Ho He. unfold exchangeSDP. unfold bind at 1. unfold get.
  rewrite Ho.
  assert (Hsel : (true && (negb (ready (errorChannel c)) || pick))%bool
                 = true).
  { destruct He as [He | He]; rewrite He; simpl; auto using orb_true_r. }
  rewrite Hsel. reflexivity.
Qed.

Lemma retry_panics_on_closed_answer r c b p ch :
  broker c = Some b ->
  pc c = Some p ->
  answerChannel c = Some ch ->
  ch_closed ch = true ->
  fst (retry ReconnectTimeout LocalDescription (S r) c) =
  Panicked "send on closed channel".
Proof.
  intros Hb Hp Ha Hc. cbn [retry].
  assert (E : exists c',
             sendOfferToBroker LocalDescription c =
             (Panicked "send on closed channel", c')).
  { unfold sendOfferToBroker. unfold bind at 1. unfold get.
    rewrite Hb, Hp. unfold bind at 1. unfold modify at 1.
    unfold bind at 1. unfold modify at 1.
    destruct (replies b (calls b) (LocalDescription p)) as [[a|] [e|]];
      unfold bind, get; simpl; rewrite Ha; unfold send_on, chan_send;
      rewrite Hc; eexists; reflexivity. }
  destruct E as (c' & E).
  unfold bind at 1. unfold go. rewrite E. reflexivity.
Qed.

(** X11: [Connect] on a session that [Close] has left (flag set, the
    three signal channels closed and empty, no channel) never negotiates.
    As soon as the engine reports the end of the candidate gathering the
    callback panics.  If no callback comes, the [select] finds both closed
    channels ready: taking the error case it reads a nil error, and
    [Connect] returns nil and starts a watchdog although the session is
    closed, the new engine connection held; taking the offer case with a
    broker, the loop panics on the closed answer channel after the first
    call of the broker. *)
Theorem Connect_after_Close_never_negotiates (c : WebRTCPeer)
    (p : PeerConnection) (d : DataChannel) (k1 k2 k3 q1 q2 q3 : nat) :
  closed c = true ->
  transport c = None ->
  offerChannel c = Some (MkChan [] k1 true q1 []) ->
  answerChannel c = Some (MkChan [] k2 true q2 []) ->
  errorChannel c = Some (MkChan [] k3 true q3 []) ->
  (forall p' cbs pick r,
     fst (Connect ReconnectTimeout LocalDescription SetRemoteDescription sync
            (Ok p) (Ok d) (OnIceComplete p' :: cbs) pick r c) =
     Panicked "send on closed channel") /\
  (forall r,
     let res := Connect ReconnectTimeout LocalDescription
                  SetRemoteDescription sync (Ok p) (Ok d) [] false r c in
     fst res = Returned (Done None) /\
     closed (snd res) = true /\ pc (snd res) = Some p /\
     trace (snd res) =
       trace c ++ release_calls c ++
       [EvNewPeerConnection; EvCreateDataChannel p (id c);
        EvLog LogFailedOffer; EvGoCheckForStaleness]) /\
  (forall b r,
     broker c = Some b ->
     fst (Connect ReconnectTimeout LocalDescription SetRemoteDescription sync
            (Ok p) (Ok d) [] true (S r) c) =
     Panicked "send on closed channel").
Proof.
  intros Hc Ht Ho Ha He.
  set (c3 := prepared p c).
  assert (Ho3 : offerChannel c3 = Some (MkChan [] k1 true q1 [])) by exact Ho.
  assert (Ha3 : answerChannel c3 = Some (MkChan [] k2 true q2 [])) by exact Ha.
  assert (He3 : errorChannel c3 = Some (MkChan [] k3 true q3 [])) by exact He.
  assert (Hc3 : closed c3 = true) by exact Hc.
  assert (Hro : ready (offerChannel c3) = true) by (rewrite Ho3; reflexivity).
  assert (Hre : ready (errorChannel c3) = true) by (rewrite He3; reflexivity).
  split; [|split].
  - intros p' cbs pick r.
    rewrite (Connect_prepared (OnIceComplete p' :: cbs) pick r c p d Ht).
    fold c3.
    assert (E : go (pc_OnIceComplete LocalDescription p') c3 =
                (Panicked "send on closed channel", c3)).
    { unfold go, pc_OnIceComplete, bind, get, lift.
      rewrite Ho3. reflexivity. }
    erewrite bind_panicked; [reflexivity|].
    cbn [callbacks]. apply bind_panicked. exact E.
  - intros r res.
    assert (E : exists c',
               res = (Returned (Done None), c') /\
               closed c' = true /\ pc c' = Some p /\
               trace c' =
                 trace c ++ release_calls c ++
                 [EvNewPeerConnection; EvCreateDataChannel p (id c);
                  EvLog LogFailedOffer; EvGoCheckForStaleness]).
    { unfold res.
      rewrite (Connect_prepared_quiet false r c p d Ht). fold c3.
      unfold bind at 1. unfold exchangeSDP. unfold bind at 1. unfold get.
      rewrite Hro, Hre. cbn [andb negb orb].
      erewrite bind_returned;
        [|unfold recv_error, chan_recv; rewrite He3; reflexivity].
      unfold bind at 1. unfold log, modify at 1. unfold bind at 1.
      rewrite Close_when_closed by exact Hc3.
      unfold bind, ret, modify. cbn [fst].
      eexists. split; [reflexivity|].
      unfold c3, prepared. cbn -[Z.mul]. rewrite <- !app_assoc.
      repeat split. exact Hc. }
    destruct E as (c' & E & E1 & E2 & E3). rewrite E. simpl. auto.
  - intros b r Hb.
    rewrite (Connect_prepared_quiet true (S r) c p d Ht). fold c3.
    unfold bind at 1.
    rewrite exchangeSDP_takes_offer; [|exact Hro|right; reflexivity].
    destruct (recv_offer_ready c3 Hro) as (v & ch & Hr).
    unfold bind at 1. rewrite Hr.
    unfold bind at 1.
    pose proof (retry_panics_on_closed_answer r
                  (set_offerChannel (Some ch) c3) b p
                  (MkChan [] k2 true q2 []) Hb eq_refl Ha3 eq_refl) as Hp.
    destruct (retry ReconnectTimeout LocalDescription (S r)
                (set_offerChannel (Some ch) c3)) as [o c4].
    simpl in Hp. subst o. reflexivity.
Qed.

End Reconnect.

Lemma Connect_after_Close_never_negotiates_witness :
  let c := snd (Close (dataChannel_Close 0) (NewWebRTCPeer "a" None)) in
  let ld := fun _ : PeerConnection => Some {| Sdp := "OFFER-1" |} in
  let srd := fun (_ : PeerConnection) (_ : SessionDescription) => @None Err in
  closed c = true /\
  fst (Connect 10 ld srd 0 (Ok 1) (Ok 7) [OnIceComplete 1] true 1 c) =
    Panicked "send on closed channel" /\
  fst (Connect 10 ld srd 0 (Ok 1) (Ok 7) [] false 1 c) =
    Returned (Done None).
Proof.
  intros c ld srd. split; [reflexivity|].
  destruct (Connect_after_Close_never_negotiates 10 ld srd 0 c 1 7
              1 1 1 0 0 0 eq_refl eq_refl eq_refl eq_refl eq_refl)
    as (H1 & H2 & _).
  split; [apply H1|apply (H2 1)].
Defined.

(** ** A connection that succeeds *)

Section Success.

Variable ReconnectTimeout : Z.
Variable LocalDescription : PeerConnection -> option SessionDescription.
Variable SetRemoteDescription :
  PeerConnection -> SessionDescription -> option Err.
Variable sync : nat.

(** X13: on a session without a channel whose offer and answer slots are
    free and whose error slot is empty, when the engine makes the
    connection and the channel and reports the end of the candidate
    gathering, the broker answers in round [k] and the answer is accepted,
    [Connect] returns nil.  It has closed the connection held before,
    asked the broker [k + 1] times, applied the answer and started the
    watchdog last; it holds the new connection, and the channel is still
    absent (it comes with the open event), so that writes are buffered. *)
Theorem Connect_succeeds (c : WebRTCPeer) (p : PeerConnection)
    (d : DataChannel) (b : BrokerChannel) (k : nat)
    (ans : SessionDescription) (m n : nat) (pick : bool) (r : nat) :
  transport c = None ->
  offerChannel c = Some (MkChan [] (S m) false 0 []) ->
  ready (errorChannel c) = false ->
  broker c = Some b ->
  answerChannel c = Some (MkChan [] (S n) false 0 []) ->
  (forall i, i < k ->
             failing (replies b (calls b + i) (LocalDescription p)) = true) ->
  replies b (calls b + k) (LocalDescription p) = (Some ans, None) ->
  SetRemoteDescription p ans = None ->
  k < r ->
  exists c',
    Connect ReconnectTimeout LocalDescription SetRemoteDescription sync
      (Ok p) (Ok d) [OnIceComplete p] pick r c =
    (Returned (Done None), c') /\
    pc c' = Some p /\ transport c' = None /\
    closed c' = closed c /\ reset c' = reset c /\
    trace c' =
      trace c ++ release_calls c ++
      [EvNewPeerConnection; EvCreateDataChannel p (id c)] ++
      failed_rounds (LocalDescription p) (Second * ReconnectTimeout) k ++
      [EvNegotiate (LocalDescription p); EvSetRemoteDescription p ans;
       EvGoCheckForStaleness].
Proof.
  intros Ht Ho He Hb Ha Hf Hk Hsrd Hr.
  set (c3 := prepared p c).
  set (c4 := set_offerChannel
               (Some (MkChan [LocalDescription p] (S m) false 0 [])) c3).
  assert (Ecb : callbacks LocalDescription sync [OnIceComplete p] c3 =
                (Returned tt, c4)).
  { cbn [callbacks callback].
    assert (E : pc_OnIceComplete LocalDescription p c3 = (Returned tt, c4)).
    { unfold pc_OnIceComplete, bind, get, lift, modify, chan_send.
      change (offerChannel c3) with (offerChannel c). rewrite Ho.
      reflexivity. }
    unfold bind, go. rewrite E. reflexivity. }
  replace r with (S (k + (r - S k))) by lia.
  destruct (exchangeSDP_answered ReconnectTimeout LocalDescription
              SetRemoteDescription sync k ans (r - S k) pick c4 b p n
              eq_refl (or_introl He) Hb eq_refl Ha Hf Hk)
    as (c' & E & Hcl & Hpc & Hrs & Htr & Htrace).
  rewrite Hsrd in E, Htrace.
  rewrite (Connect_prepared ReconnectTimeout LocalDescription
             SetRemoteDescription sync [OnIceComplete p] pick
             (S (k + (r - S k))) c p d Ht).
  fold c3. unfold bind at 1. rewrite Ecb.
  unfold bind at 1. rewrite E.
  unfold bind, modify, ret.
  eexists. split; [reflexivity|].
  cbn -[Z.mul]. rewrite Hpc, Htr, Hcl, Hrs, Htrace.
  unfold c4, c3, prepared. cbn -[Z.mul]. rewrite <- !app_assoc.
  cbn -[Z.mul]. repeat split; assumption.
Qed.

End Success.

Lemma Connect_succeeds_witness :
  let reply := fun (i : nat) (_ : option SessionDescription) =>
                 match i with
                 | 0 => (None, Some "unavailable"%string)
                 | _ => (Some {| Sdp := "ANSWER" |}, None)
                 end in
  let b := {| replies := reply; calls := 0 |} in
  let ld := fun _ : PeerConnection => Some {| Sdp := "OFFER-1" |} in
  let srd := fun (_ : PeerConnection) (_ : SessionDescription) => @None Err in
  let c := set_pc (Some 3) (NewWebRTCPeer "a" (Some b)) in
  let res := Connect 10 ld srd 0 (Ok 4) (Ok 7) [OnIceComplete 4] true 2 c in
  transport c = None /\
  fst res = Returned (Done None) /\
  pc (snd res) = Some 4 /\
  trace (snd res) =
    [EvPeerConnectionClose 3; EvNewPeerConnection;
     EvCreateDataChannel 4 "snowflake-a";
     EvNegotiate (ld 4); EvLog LogRetrying; EvSleep (Second * 10);
     EvNegotiate (ld 4); EvSetRemoteDescription 4 {| Sdp := "ANSWER" |};
     EvGoCheckForStaleness].
Proof.
  intros reply b ld srd c res. split; [reflexivity|].
  assert (Hf : forall i, i < 1 ->
                         failing (replies b (calls b + i) (ld 4)) = true).
  { intros i Hi. destruct i as [|i]; [reflexivity|lia]. }
  destruct (Connect_succeeds 10 ld srd 0 c 4 7 b 1 {| Sdp := "ANSWER" |}
              0 0 true 2 eq_refl eq_refl eq_refl eq_refl eq_refl Hf eq_refl
              eq_refl (le_n 2)) as (c' & E & Hp & _ & _ & _ & Ht).
  assert (E' : res = (Returned (Done None), c')) by exact E.
  rewrite E'. split; [reflexivity|]. split; [exact Hp|exact Ht].
Defined.

(** ** What an open session keeps *)

Lemma open_ok_frame c c' :
  closed c' = closed c ->
  writePipe c' = writePipe c ->
  offerChannel c' = offerChannel c ->
  answerChannel c' = answerChannel c ->
  errorChannel c' = errorChannel c ->
  open_ok c -> open_ok c'.
Proof.
  unfold open_ok. intros H1 H2 H3 H4 H5 H. rewrite H1, H2, H3, H4, H5.
  exact H.
Qed.

Lemma open_ok_closed c : closed c = true -> open_ok c.
Proof. intros H Hc. rewrite H in Hc. discriminate. Qed.

Ltac open_leaf :=
  idtac;
  let c := fresh "c" in
  let Hc := fresh "Hc" in
  intros c Hc; apply (open_ok_frame c); [reflexivity .. | exact Hc].

Lemma chan_send_live A (ch : Chan A) v :
  ch_closed (snd (chan_send ch v)) = ch_closed ch.
Proof.
  unfold chan_send. destruct (ch_closed ch) eqn:E; [exact E|].
  destruct (ch_recvq ch); [|reflexivity].
  destruct (length (ch_buf ch) <? ch_cap ch); reflexivity.
Qed.

Lemma chan_recv_live A (z : A) (ch : Chan A) :
  ch_closed (snd (chan_recv z ch)) = ch_closed ch.
Proof.
  unfold chan_recv.
  destruct (ch_buf ch), (ch_closed ch) eqn:E, (ch_sendq ch); simpl; auto.
Qed.

Lemma open_ok_send_error e : keeps open_ok (send_error e).
Proof.
  intros c H. unfold send_error, bind, get, send_on.
  destruct (errorChannel c) as [ch|] eqn:E; simpl; [|exact H].
  pose proof (chan_send_live _ ch (Some e)) as L.
  destruct (chan_send ch (Some e)) as [[a| |m] ch']; simpl in *;
    try exact H; intros Hcl; destruct (H Hcl) as (Hw & Ho & Ha & He);
    rewrite E in He; simpl in *; rewrite L; auto.
Qed.

Lemma open_ok_pc_OnIceComplete ld p : keeps open_ok (pc_OnIceComplete ld p).
Proof.
  intros c H. unfold pc_OnIceComplete, bind, get, send_on.
  destruct (offerChannel c) as [ch|] eqn:E; simpl; [|exact H].
  pose proof (chan_send_live _ ch (ld p)) as L.
  destruct (chan_send ch (ld p)) as [[a| |m] ch']; simpl in *;
    try exact H; intros Hcl; destruct (H Hcl) as (Hw & Ho & Ha & He);
    rewrite E in Ho; simpl in *; rewrite L; auto.
Qed.

Lemma open_ok_recv_offer : keeps open_ok recv_offer.
Proof.
  intros c H. unfold recv_offer.
  destruct (offerChannel c) as [ch|] eqn:E; [|exact H].
  pose proof (chan_recv_live _ None ch) as L.
  destruct (chan_recv None ch) as [o ch']. simpl in *.
  intros Hcl. destruct (H Hcl) as (Hw & Ho & Ha & He).
  rewrite E in Ho. simpl in *. rewrite L. auto.
Qed.

Lemma open_ok_recv_answer : keeps open_ok recv_answer.
Proof.
  intros c H. unfold recv_answer.
  destruct (answerChannel c) as [ch|] eqn:E; [|exact H].
  pose proof (chan_recv_live _ None ch) as L.
  destruct (chan_recv None ch) as [o ch']. simpl in *.
  intros Hcl. destruct (H Hcl) as (Hw & Ho & Ha & He).
  rewrite E in Ha. simpl in *. rewrite L. auto.
Qed.

Lemma open_ok_recv_error : keeps open_ok recv_error.
Proof.
  intros c H. unfold recv_error.
  destruct (errorChannel c) as [ch|] eqn:E; [|exact H].
  pose proof (chan_recv_live _ None ch) as L.
  destruct (chan_recv None ch) as [o ch']. simpl in *.
  intros Hcl. destruct (H Hcl) as (Hw & Ho & Ha & He).
  rewrite E in He. simpl in *. rewrite L. auto.
Qed.

Lemma open_ok_Close sync : keeps open_ok (Close (dataChannel_Close sync)).
Proof. intros c _. apply open_ok_closed, Close_closes. Qed.

Lemma open_ok_Write b : keeps open_ok (Write b).
Proof. unfold Write. keeps_with open_leaf. Qed.

Lemma open_ok_Reset : keeps open_ok Reset.
Proof. unfold Reset. keeps_with open_leaf. Qed.

Lemma open_ok_WaitForReset : keeps open_ok WaitForReset.
Proof.
  intros c H. unfold WaitForReset. destruct (reset c) as [ch|]; [|exact H].
  destruct (chan_recv tt ch) as [[a| |m] ch']; simpl; try exact H;
    apply (open_ok_frame c); auto.
Qed.

Lemma open_ok_dc_OnOpen dc : keeps open_ok (dc_OnOpen dc).
Proof. unfold dc_OnOpen. keeps_with open_leaf. Qed.

Lemma open_ok_dc_OnMessage now wr msg :
  keeps open_ok (dc_OnMessage now wr msg).
Proof. unfold dc_OnMessage, log. keeps_with open_leaf. Qed.

Lemma open_ok_dc_OnClose sync :
  keeps open_ok (dc_OnClose (dataChannel_Close sync)).
Proof.
  unfold dc_OnClose, log. pose proof (open_ok_Close sync).
  keeps_with open_leaf.
Qed.

Lemma open_ok_pc_OnNegotiationNeeded offer setLocal :
  keeps open_ok (pc_OnNegotiationNeeded offer setLocal).
Proof.
  unfold pc_OnNegotiationNeeded.
  destruct offer; [destruct setLocal|]; try apply open_ok_send_error.
  apply keeps_ret.
Qed.

Lemma open_ok_preparePeerConnection r :
  keeps open_ok (preparePeerConnection r).
Proof. unfold preparePeerConnection. keeps_with open_leaf. Qed.

Lemma open_ok_establishDataChannel r :
  keeps open_ok (establishDataChannel r).
Proof. unfold establishDataChannel. keeps_with open_leaf. Qed.

Lemma open_ok_sendOfferToBroker ld : keeps open_ok (sendOfferToBroker ld).
Proof.
  intros c H. unfold sendOfferToBroker, bind, get, modify, lift, panic.
  destruct (broker c) as [b|]; [|exact H].
  destruct (pc c) as [p|]; [|exact H]. simpl.
  assert (H1 : open_ok
                 (set_broker
                    (Some {| replies := replies b; calls := S (calls b) |})
                    (emit (EvNegotiate (ld p)) c))).
  { apply (open_ok_frame c); auto. }
  destruct (replies b (calls b) (ld p)) as [[a|] [e|]]; simpl;
    destruct (answerChannel c) as [ch|] eqn:E; simpl; try exact H1;
    unfold send_on;
    match goal with
    | |- context [chan_send ch ?v] =>
        pose proof (chan_send_live _ ch v) as L;
        destruct (chan_send ch v) as [[u| |m] ch']; simpl in *;
        try exact H1
    end;
    intros Hcl; destruct (H Hcl) as (Hw & Ho & Ha & He);
    rewrite E in Ha; simpl in *; rewrite L; auto.
Qed.

Section OpenSession.

Variables SnowflakeTimeout ReconnectTimeout : Z.
Variable LocalDescription : PeerConnection -> option SessionDescription.
Variable SetRemoteDescription :
  PeerConnection -> SessionDescription -> option Err.
Variable sync : nat.

Lemma open_ok_retry rounds :
  keeps open_ok (retry ReconnectTimeout LocalDescription rounds).
Proof.
  induction rounds as [|k IH]; simpl.
  - apply keeps_ret.
  - pose proof (open_ok_sendOfferToBroker LocalDescription).
    pose proof open_ok_recv_answer.
    unfold log. keeps_with open_leaf.
Qed.

Lemma open_ok_exchangeSDP pick rounds :
  keeps open_ok
    (exchangeSDP ReconnectTimeout LocalDescription SetRemoteDescription sync
       pick rounds).
Proof.
  unfold exchangeSDP, log.
  pose proof (open_ok_retry rounds). pose proof open_ok_recv_offer.
  pose proof open_ok_recv_error. pose proof (open_ok_Close sync).
  keeps_with open_leaf.
Qed.

Lemma open_ok_staleness_round now :
  keeps open_ok (staleness_round SnowflakeTimeout sync now).
Proof.
  unfold staleness_round, log. pose proof (open_ok_Close sync).
  keeps_with open_leaf.
Qed.

Lemma open_ok_callback cb :
  keeps open_ok (callback LocalDescription sync cb).
Proof.
  destruct cb; simpl.
  - apply open_ok_pc_OnNegotiationNeeded.
  - apply keeps_ret.
  - apply open_ok_pc_OnIceComplete.
  - apply keeps_panic.
  - apply open_ok_dc_OnOpen.
  - apply open_ok_dc_OnClose.
  - apply open_ok_dc_OnMessage.
Qed.

Lemma open_ok_callbacks cbs :
  keeps open_ok (callbacks LocalDescription sync cbs).
Proof.
  induction cbs as [|cb rest IH]; simpl.
  - apply keeps_ret.
  - pose proof (open_ok_callback cb). keeps_with open_leaf.
Qed.

Lemma open_ok_Connect newPC newDC cbs pick rounds :
  keeps open_ok
    (Connect ReconnectTimeout LocalDescription SetRemoteDescription sync
       newPC newDC cbs pick rounds).
Proof.
  unfold Connect.
  pose proof (open_ok_preparePeerConnection newPC).
  pose proof (open_ok_establishDataChannel newDC).
  pose proof (open_ok_callbacks cbs).
  pose proof (open_ok_exchangeSDP pick rounds).
  keeps_with open_leaf.
Qed.

Lemma open_ok_run_op op :
  keeps open_ok
    (run_op SnowflakeTimeout ReconnectTimeout LocalDescription
       SetRemoteDescription sync op).
Proof.
  destruct op; simpl.
  - pose proof (open_ok_Write b). keeps_with open_leaf.
  - pose proof (open_ok_Close sync). keeps_with open_leaf.
  - apply open_ok_Reset.
  - apply open_ok_WaitForReset.
  - pose proof (open_ok_Connect newPC newDC cbs pick rounds).
    keeps_with open_leaf.
  - apply open_ok_callback.
  - keeps_with open_leaf.
  - pose proof (open_ok_staleness_round now). keeps_with open_leaf.
  - unfold woken_sender. keeps_with open_leaf.
Qed.

Lemma open_ok_run_ops ops c :
  open_ok c ->
  open_ok
    (run_ops SnowflakeTimeout ReconnectTimeout LocalDescription
       SetRemoteDescription sync ops c).
Proof.
  revert c. induction ops as [|op rest IH]; intros c H; simpl; [exact H|].
  pose proof (open_ok_run_op op c H) as Hop.
  destruct (run_op _ _ _ _ _ op c) as [[a| |msg] c']; simpl in Hop; auto.
Qed.

Lemma open_ok_new uid b : open_ok (NewWebRTCPeer uid b).
Proof. intros _. simpl. repeat split. discriminate. Qed.

Lemma Reset_open_slot c ch m :
  reset c = Some ch -> ch_closed ch = false -> fst (Reset c) <> Panicked m.
Proof.
  intros Hr Hcl. unfold Reset. unfold bind, get, send_on, chan_send.
  rewrite Hr, Hcl.
  destruct (ch_recvq ch); [destruct (_ <? _)|]; discriminate.
Qed.

Lemma live_closable A (ch : option (Chan A)) :
  live ch = true -> closable ch = true.
Proof. destruct ch; simpl; [auto|discriminate]. Qed.

(** X12: in every state that the operations of the file can bring a
    peer made by [NewWebRTCPeer] to, an open session has the write end of
    its bridge and its three signal channels in place and open.  So
    [Close] never panics; while the session is open a message that the
    bridge takes in full is delivered (the write end is not nil), and the
    callbacks that send on the offer and error channels do not panic. *)
Theorem open_session_has_its_parts (uid : string)
    (b : option BrokerChannel) (ops : list Op) :
  let c := run_ops SnowflakeTimeout ReconnectTimeout LocalDescription
             SetRemoteDescription sync ops (NewWebRTCPeer uid b) in
  open_ok c /\
  (forall m, fst (Close (dataChannel_Close sync) c) <> Panicked m) /\
  (forall now msg,
     closed c = false ->
     fst (dc_OnMessage now (length msg, None) msg c) = Returned tt) /\
  (forall p m,
     closed c = false ->
     fst (pc_OnIceComplete LocalDescription p c) <> Panicked m) /\
  (forall offer setLocal m,
     closed c = false ->
     fst (pc_OnNegotiationNeeded offer setLocal c) <> Panicked m).
Proof.
  intros c.
  assert (Hok : open_ok c) by (apply open_ok_run_ops, open_ok_new).
  assert (Hrs : reset_slot_ok c).
  { apply kept_run_ops;
      [ exact reset_slot_ok_framed | exact reset_slot_ok_Reset
      | exact reset_slot_ok_WaitForReset | apply reset_slot_ok_new ]. }
  split; [exact Hok|]. split; [|split; [|split]].
  - intros m. destruct (closed c) eqn:Hc.
    + rewrite Close_when_closed by exact Hc. discriminate.
    + destruct (Hok Hc) as (_ & Ho & Ha & He).
      rewrite (Close_open_session sync c Hc (live_closable _ _ Ho)
                 (live_closable _ _ Ha) (live_closable _ _ He)).
      destruct Hrs as (ch & Hr & _ & Hcl & _).
      pose proof (Reset_open_slot (cleaned sync (set_closed true c)) ch m
                    Hr Hcl) as Hn.
      unfold bind.
      destruct (Reset (cleaned sync (set_closed true c))) as [[a| |m'] c1];
        simpl in *; [discriminate|discriminate|].
      intros Hm. apply Hn. inversion Hm. reflexivity.
  - intros now msg Hc. destruct (Hok Hc) as (Hw & _).
    destruct (writePipe c) as [w|] eqn:E; [|congruence].
    destruct (dc_OnMessage_delivered now msg c w E) as (c' & E' & _).
    rewrite E'. reflexivity.
  - intros p m Hc. destruct (Hok Hc) as (_ & Ho & _).
    unfold pc_OnIceComplete, bind, get, send_on, chan_send.
    destruct (offerChannel c) as [ch|]; [|discriminate].
    simpl in Ho. apply negb_true_iff in Ho. rewrite Ho.
    destruct (ch_recvq ch); [destruct (_ <? _)|]; discriminate.
  - intros offer setLocal m Hc. destruct (Hok Hc) as (_ & _ & _ & He).
    assert (Hs : forall e, fst (send_error e c) <> Panicked m).
    { intros e. unfold send_error, bind, get, send_on, chan_send.
      destruct (errorChannel c) as [ch|]; [|discriminate].
      simpl in He. apply negb_true_iff in He. rewrite He.
      destruct (ch_recvq ch); [destruct (_ <? _)|]; discriminate. }
    unfold pc_OnNegotiationNeeded.
    destruct offer; [destruct setLocal|]; try apply Hs. discriminate.
Qed.

End OpenSession.

Lemma open_session_has_its_parts_witness :
  let ld := fun _ : PeerConnection => Some {| Sdp := "OFFER-1" |} in
  let srd := fun (_ : PeerConnection) (_ : SessionDescription) => @None Err in
  let ops := [OpWrite [Byte.x68]; OpReset;
              OpConnect (Ok 1) (Failed "no channel"%string) [] true 1;
              OpCallback (OnOpen 7); OpWaitForReset] in
  let c := run_ops 30 10 ld srd 0 ops (NewWebRTCPeer "a" None) in
  closed c = false /\
  fst (dc_OnMessage 5%Z (1, None) [Byte.x61] c) = Returned tt /\
  fst (Close (dataChannel_Close 0) c) <> Panicked "close of closed channel".
Proof.
  intros ld srd ops c. split; [reflexivity|].
  destruct (open_session_has_its_parts 30 10 ld srd 0 "a" None ops)
    as (_ & H2 & H3 & _).
  split.
  - apply (H3 5%Z [Byte.x61]). reflexivity.
  - apply H2.
Defined.

(** ** Writes after the channel has closed *)

Lemma dc_OnClose_leaves_buffer sync c :
  let c' := snd (dc_OnClose (dataChannel_Close sync) c) in
  transport c' = None /\ buffer c' = buffer c /\
  sends (trace c') = sends (trace c).
Proof.
  intros c'. unfold c'. destruct (transport c) as [t|] eqn:Ht.
  - assert (E : dc_OnClose (dataChannel_Close sync) c =
                (Close (dataChannel_Close sync) ;; ret tt)
                  (set_transport None (emit (EvLog LogOnCloseRemotely) c))).
    { unfold dc_OnClose, bind, get, log, modify. rewrite Ht. reflexivity. }
    rewrite E. unfold bind.
    set (c0 := set_transport None (emit (EvLog LogOnCloseRemotely) c)).
    pose proof (no_channel_Close _ (no_channel_dataChannel_Close sync) c0
                  eq_refl) as Hn.
    pose proof (buffer_kept_Close _ (buffer c) (sends (trace c))
                  (buffer_kept_dataChannel_Close sync _ _) c0) as Hb.
    assert (H0 : buffer c0 = buffer c /\ sends (trace c0) = sends (trace c)).
    { unfold c0. simpl. rewrite sends_app. simpl. rewrite app_nil_r. auto. }
    specialize (Hb H0).
    destruct (Close (dataChannel_Close sync) c0) as [[a| |m] c1];
      simpl in *; destruct Hb; auto.
  - rewrite dc_OnClose_cleared by exact Ht. simpl.
    rewrite sends_app. simpl. rewrite app_nil_r. auto.
Qed.

(** X14: whatever the state in which the closed callback of the channel
    arrives, the channel reference is absent afterwards; the writes made
    from then on send nothing and are appended to the buffer, and the next
    channel that opens gets what the buffer held and those writes, in
    order, in one [Send]. *)
Theorem writes_after_channel_close_wait_for_next_channel (sync : nat)
    (c : WebRTCPeer) (ws : list bytes) (dc : DataChannel) :
  let c0 := snd (dc_OnClose (dataChannel_Close sync) c) in
  exists c1 c2,
    writes ws c0 = (Returned tt, c1) /\
    dc_OnOpen dc c1 = (Returned tt, c2) /\
    sends (trace c1) = sends (trace c) /\
    buffer c1 = buffer c ++ concat ws /\
    sends (trace c2) =
      sends (trace c) ++
      match buffer c ++ concat ws with
      | [] => []
      | _ :: _ => [(dc, buffer c ++ concat ws)]
      end /\
    buffer c2 = [] /\ transport c2 = Some dc.
Proof.
  intros c0.
  destruct (dc_OnClose_leaves_buffer sync c) as (Ht & Hb & Hs).
  fold c0 in Ht, Hb, Hs.
  destruct (writes_buffered ws c0 Ht) as (c1 & Hw1 & Hb1 & Ht1 & Hs1).
  destruct (dc_OnOpen_flushes dc c1 Ht1) as (c2 & Ho & Hb2 & Ht2 & Hs2).
  exists c1, c2. rewrite Hb in Hb1. rewrite Hs in Hs1.
  rewrite Hs1, Hb1 in Hs2. repeat split; assumption.
Qed.

(** ** A callback parked on the offer channel *)

Lemma Close_keeps_offerChannel sync c :
  closed c = false ->
  closable (offerChannel c) = true ->
  closable (answerChannel c) = true ->
  closable (errorChannel c) = true ->
  offerChannel (snd (Close (dataChannel_Close sync) c)) =
  option_map shut (offerChannel c).
Proof.
  intros Hc H1 H2 H3. rewrite (Close_open_session sync c Hc H1 H2 H3).
  unfold bind.
  destruct (Reset_fields (cleaned sync (set_closed true c)))
    as (_ & _ & _ & _ & Ho & _).
  destruct (Reset (cleaned sync (set_closed true c))) as [[a| |m] c'];
    simpl in *; exact Ho.
Qed.

(** X15: a callback that reports the end of the candidate gathering while
    the offer slot is full and nobody receives parks with its offer.  When
    the open session is closed afterwards, [Close] closes the offer
    channel under the parked goroutine, which panics as soon as it runs
    again. *)
Theorem parked_offer_panics_after_Close
    (LocalDescription : PeerConnection -> option SessionDescription)
    (sync : nat) (p : PeerConnection) (c : WebRTCPeer)
    (buf : list (option SessionDescription)) (cap : nat) :
  closed c = false ->
  offerChannel c = Some (MkChan buf cap false 0 []) ->
  cap <= length buf ->
  closable (answerChannel c) = true ->
  closable (errorChannel c) = true ->
  let c1 :=
    set_offerChannel (Some (MkChan buf cap false 0 [LocalDescription p])) c in
  let c2 := snd (Close (dataChannel_Close sync) c1) in
  pc_OnIceComplete LocalDescription p c = (Blocked, c1) /\
  closed c2 = true /\
  offerChannel c2 = Some (MkChan buf cap true 0 [LocalDescription p]) /\
  woken_sender c2 = (Panicked "send on closed channel", c2).
Proof.
  intros Hc Ho Hcap Ha He c1 c2.
  assert (H3 : offerChannel c2 =
               Some (MkChan buf cap true 0 [LocalDescription p])).
  { unfold c2. rewrite Close_keeps_offerChannel; try assumption; reflexivity. }
  split; [|split; [|split]].
  - unfold pc_OnIceComplete, bind, get, send_on, chan_send. rewrite Ho.
    simpl. apply Nat.ltb_ge in Hcap. rewrite Hcap. reflexivity.
  - apply Close_closes.
  - exact H3.
  - unfold woken_sender, bind, get. rewrite H3. reflexivity.
Qed.

(** On a fresh peer: the first callback fills the offer slot, the second
    parks, and the session is closed. *)
Lemma parked_offer_panics_after_Close_witness :
  let ld := fun _ : PeerConnection => Some {| Sdp := "OFFER-1" |} in
  let c := snd (pc_OnIceComplete ld 1 (NewWebRTCPeer "a" None)) in
  let c1 := snd (pc_OnIceComplete ld 1 c) in
  let c2 := snd (Close (dataChannel_Close 0) c1) in
  closed c = false /\ 1 <= length [ld 1] /\
  fst (pc_OnIceComplete ld 1 c) = Blocked /\
  fst (Close (dataChannel_Close 0) c1) = Returned None /\
  fst (woken_sender c2) = Panicked "send on closed channel".
Proof.
  intros ld c c1 c2.
  destruct (parked_offer_panics_after_Close ld 0 1 c [ld 1] 1 eq_refl
              eq_refl (le_n 1) eq_refl eq_refl) as (H1 & _ & _ & H4).
  split; [reflexivity|]. split; [apply le_n|].
  split; [rewrite H1; reflexivity|]. split; [reflexivity|].
  unfold c2, c1. rewrite H1. cbn [snd]. rewrite H4. reflexivity.
Defined.
